(** * KENOS PROXX workers: a shallow embedding and its verified properties

    The repository holds two Cloudflare Workers, each a single
    [handleRequest]:

    - [src/worker.js], embedded as [Module Worker]: the target URL is what
      follows the first occurrence of the marker [/proxx/] in the path;
    - the worker meant for a Pages service binding, embedded as
      [Module BindingWorker]: the target URL is what follows the leading
      slash of the path.

    Both hand the extracted segment to [decodeURIComponent], check the
    scheme, forward the request with [fetch] and relay the answer after
    deleting two headers.

    The JavaScript runtime is modelled as far as the handlers use it:
    strings are sequences of UTF-16 code units ([Module JS], with
    [encodeURIComponent] and [decodeURIComponent] following the Encode and
    Decode operations of ECMA-262), header lists, [new Request] and
    [new Response] follow the Fetch standard ([Module Fetch]).

    What the source calls and does not hold is a [Runtime] passed to the
    handler: [fetch], which resolves or rejects; the checks of
    [new Request] on its arguments, the URL parser above all, given as the
    error that the constructor throws; the error objects that
    [new Response] throws.  A handler returns a response or throws, and
    every call of [fetch] is recorded in a trace together with
    [console.error].  A request carries the [pathname] and [hostname] that
    [new URL(request.url)] yields.  A header list is the list of a
    [Headers] object, whose names and values the runtime has checked. *)

From Stdlib Require Import ZArith List String Ascii Bool Lia.
Import ListNotations.
Open Scope Z_scope.

(** ** JavaScript strings and the URI builtins *)

Module JS.

(** A string is a sequence of 16-bit code units. *)
Definition jsstring := list Z.

Definition code_unit (c : Z) : Prop := 0 <= c < 65536.

Definition is_string (s : jsstring) : Prop := Forall code_unit s.

(** A string literal of the source, all of whose characters are ASCII. *)
Definition js (s : string) : jsstring :=
  map (fun a => Z.of_N (N_of_ascii a)) (list_ascii_of_string s).

(** [s.length] *)
Definition length (s : jsstring) : Z := Z.of_nat (List.length s).

(** [s.startsWith(p)] *)
Fixpoint startsWith (s p : jsstring) : bool :=
  match p, s with
  | [], _ => true
  | _ :: _, [] => false
  | x :: p', c :: s' => (c =? x) && startsWith s' p'
  end.

(** [s.indexOf(p)]: the least index at which [p] occurs in [s], or -1. *)
Fixpoint indexOf (s p : jsstring) : Z :=
  if startsWith s p then 0
  else match s with
       | [] => -1
       | _ :: t => let k := indexOf t p in if k =? -1 then -1 else k + 1
       end.

(** [s.substring(start)]: a start below 0 counts as 0, one beyond the
    length as the length. *)
Definition substring (s : jsstring) (start : Z) : jsstring :=
  skipn (Z.to_nat start) s.

(** [!s] on a string: only the empty string is falsy. *)
Definition falsy (s : jsstring) : bool :=
  match s with [] => true | _ :: _ => false end.

Definition mem (c : Z) (set : jsstring) : bool := existsb (Z.eqb c) set.

(** *** Hexadecimal octets *)

Definition hexval (c : Z) : option Z :=
  if (48 <=? c) && (c <=? 57) then Some (c - 48)
  else if (65 <=? c) && (c <=? 70) then Some (c - 55)
  else if (97 <=? c) && (c <=? 102) then Some (c - 87)
  else None.

(** ParseHexOctet of ECMA-262 on the two code units after a [%]. *)
Definition ParseHexOctet (h1 h2 : Z) : option Z :=
  match hexval h1, hexval h2 with
  | Some a, Some b => Some (16 * a + b)
  | _, _ => None
  end.

(** The upper-case hexadecimal digit of [d]. *)
Definition hexdigit (d : Z) : Z := if d <? 10 then 48 + d else 55 + d.

(** [%XX] for the octet [b]. *)
Definition pct (b : Z) : jsstring := [37; hexdigit (b / 16); hexdigit (b mod 16)].

(** *** UTF-8 and UTF-16 *)

Definition is_lead (c : Z) : bool := (55296 <=? c) && (c <=? 56319).
Definition is_trail (c : Z) : bool := (56320 <=? c) && (c <=? 57343).

(** UTF16SurrogatePairToCodePoint *)
Definition pair_code_point (lead trail : Z) : Z :=
  (lead - 55296) * 1024 + (trail - 56320) + 65536.

(** UTF16EncodeCodePoint *)
Definition UTF16EncodeCodePoint (cp : Z) : jsstring :=
  if cp <=? 65535 then [cp]
  else [55296 + (cp - 65536) / 1024; 56320 + (cp - 65536) mod 1024].

Definition utf8_encode (cp : Z) : list Z :=
  if cp <? 128 then [cp]
  else if cp <? 2048 then [192 + cp / 64; 128 + cp mod 64]
  else if cp <? 65536 then
    [224 + cp / 4096; 128 + (cp / 64) mod 64; 128 + cp mod 64]
  else
    [240 + cp / 262144; 128 + (cp / 4096) mod 64;
     128 + (cp / 64) mod 64; 128 + cp mod 64].

(** The UTF-8 octets of a string, as a body made from a string carries
    them: a surrogate without its partner counts as U+FFFD. *)
Fixpoint UTF8Encode (s : jsstring) : list Z :=
  match s with
  | [] => []
  | C :: t =>
      if is_lead C then
        match t with
        | D :: t' =>
            if is_trail D then utf8_encode (pair_code_point C D) ++ UTF8Encode t'
            else utf8_encode 65533 ++ UTF8Encode t
        | [] => utf8_encode 65533
        end
      else if is_trail C then utf8_encode 65533 ++ UTF8Encode t
      else utf8_encode C ++ UTF8Encode t
  end.

Definition is_continuation (b : Z) : bool := (128 <=? b) && (b <=? 191).

(** The code point of a multi-octet sequence, when the sequence is a valid
    UTF-8 encoding: continuation octets in 80..BF, shortest form, no
    surrogate, at most 10FFFF. *)
Definition utf8_decode (octets : list Z) : option Z :=
  match octets with
  | [b0; b1] =>
      let v := (b0 mod 32) * 64 + b1 mod 64 in
      if is_continuation b1 && (128 <=? v) then Some v else None
  | [b0; b1; b2] =>
      let v := (b0 mod 16) * 4096 + (b1 mod 64) * 64 + b2 mod 64 in
      if is_continuation b1 && is_continuation b2 && (2048 <=? v)
         && negb (is_lead v || is_trail v)
      then Some v else None
  | [b0; b1; b2; b3] =>
      let v := (b0 mod 8) * 262144 + (b1 mod 64) * 4096
               + (b2 mod 64) * 64 + b3 mod 64 in
      if is_continuation b1 && is_continuation b2 && is_continuation b3
         && (65536 <=? v) && (v <=? 1114111)
      then Some v else None
  | _ => None
  end.

(** The number of leading 1 bits of an octet (5 stands for 5 or more). *)
Definition leading_ones (B : Z) : nat :=
  if B <? 128 then 0
  else if B <? 192 then 1
  else if B <? 224 then 2
  else if B <? 240 then 3
  else if B <? 248 then 4
  else 5.

(** *** Encode and Decode

    [None] is a thrown [URIError]. *)

Definition uriUnreserved : jsstring :=
  js "ABCDEFGHIJKLMNOPQRSTUVWXYZabcdefghijklmnopqrstuvwxyz0123456789-_.!~*'()".

Fixpoint Encode (unescapedSet s : jsstring) : option jsstring :=
  match s with
  | [] => Some []
  | C :: t =>
      if mem C unescapedSet then option_map (cons C) (Encode unescapedSet t)
      else if is_trail C then None
      else if is_lead C then
        match t with
        | D :: t' =>
            if is_trail D
            then option_map
                   (app (flat_map pct (utf8_encode (pair_code_point C D))))
                   (Encode unescapedSet t')
            else None
        | [] => None
        end
      else option_map (app (flat_map pct (utf8_encode C)))
                      (Encode unescapedSet t)
  end.

Definition encodeURIComponent (s : jsstring) : option jsstring :=
  Encode uriUnreserved s.

(** The octet of an escape [%XX] standing at the head of the rest of the
    string. *)
Definition escape_at (p h1 h2 : Z) : option Z :=
  if p =? 37 then ParseHexOctet h1 h2 else None.

Definition decoded (octets : list Z) (rest : option jsstring) : option jsstring :=
  match utf8_decode octets with
  | Some V => option_map (app (UTF16EncodeCodePoint V)) rest
  | None => None
  end.

Fixpoint Decode (preserveEscapeSet s : jsstring) : option jsstring :=
  match s with
  | [] => Some []
  | C :: t =>
      if negb (C =? 37) then option_map (cons C) (Decode preserveEscapeSet t)
      else
        match t with
        | h1 :: h2 :: t1 =>
            match ParseHexOctet h1 h2 with
            | None => None
            | Some B =>
                match leading_ones B with
                | 0%nat =>
                    option_map
                      (app (if mem B preserveEscapeSet then [C; h1; h2] else [B]))
                      (Decode preserveEscapeSet t1)
                | 2%nat =>
                    match t1 with
                    | p1 :: x1 :: y1 :: t2 =>
                        match escape_at p1 x1 y1 with
                        | Some B1 => decoded [B; B1] (Decode preserveEscapeSet t2)
                        | None => None
                        end
                    | _ => None
                    end
                | 3%nat =>
                    match t1 with
                    | p1 :: x1 :: y1 :: p2 :: x2 :: y2 :: t2 =>
                        match escape_at p1 x1 y1, escape_at p2 x2 y2 with
                        | Some B1, Some B2 =>
                            decoded [B; B1; B2] (Decode preserveEscapeSet t2)
                        | _, _ => None
                        end
                    | _ => None
                    end
                | 4%nat =>
                    match t1 with
                    | p1 :: x1 :: y1 :: p2 :: x2 :: y2 :: p3 :: x3 :: y3 :: t2 =>
                        match escape_at p1 x1 y1, escape_at p2 x2 y2,
                              escape_at p3 x3 y3 with
                        | Some B1, Some B2, Some B3 =>
                            decoded [B; B1; B2; B3] (Decode preserveEscapeSet t2)
                        | _, _, _ => None
                        end
                    | _ => None
                    end
                | _ => None
                end
            end
        | _ => None
        end
  end.

Definition decodeURIComponent (s : jsstring) : option jsstring := Decode [] s.

End JS.


(** ** Header lists, requests and responses of the Fetch standard *)

Module Fetch.
Import JS.

Definition byte_lowercase (c : Z) : Z :=
  if (65 <=? c) && (c <=? 90) then c + 32 else c.

Fixpoint string_eqb (a b : jsstring) : bool :=
  match a, b with
  | [], [] => true
  | x :: a', y :: b' => (x =? y) && string_eqb a' b'
  | _, _ => false
  end.

(** Header names match byte-case-insensitively. *)
Definition same_name (a b : jsstring) : bool :=
  string_eqb (map byte_lowercase a) (map byte_lowercase b).

(** A header list keeps its entries in order, repeated names included. *)
Definition Headers := list (jsstring * jsstring).

Definition named (name : jsstring) (h : jsstring * jsstring) : bool :=
  same_name (fst h) name.

(** [headers.has(name)] *)
Definition has (hs : Headers) (name : jsstring) : bool :=
  existsb (named name) hs.

(** [headers.get(name)]: the values of the headers called [name], joined
    by a comma and a space; [None] is [null]. *)
Definition get (hs : Headers) (name : jsstring) : option jsstring :=
  match filter (named name) hs with
  | [] => None
  | h :: more =>
      Some (fold_left (fun acc h' => acc ++ js ", " ++ snd h') more (snd h))
  end.

(** [headers.delete(name)] removes every header called [name]. *)
Definition delete (hs : Headers) (name : jsstring) : Headers :=
  filter (fun h => negb (named name h)) hs.

(** [headers.set(name, value)]: the first header called [name] takes the
    value and the others go; without one the header is appended. *)
Fixpoint set (hs : Headers) (name value : jsstring) : Headers :=
  match hs with
  | [] => [(name, value)]
  | h :: t =>
      if named name h then (fst h, value) :: delete t name
      else h :: set t name value
  end.

(** A body is a stream of bytes. *)
Definition Stream : Type := list Z.

(** What a response can be made from: a string or a stream. *)
Inductive BodyInit : Type :=
  | FromString (s : jsstring)
  | FromStream (st : Stream).

(** What [new URL(request.url)] yields, as far as the handlers read it. *)
Record URL : Type := { hostname : jsstring; pathname : jsstring }.

(** The inbound request; [None] is a [null] body. *)
Record Request : Type := {
  url : URL;
  method : jsstring;
  headers : Headers;
  body : option Stream }.

(** The redirect modes [follow], [error] and [manual]. *)
Inductive RedirectMode : Type := follow | redirect_error | manual.

Record RequestInit : Type := {
  init_method : jsstring;
  init_headers : Headers;
  init_body : option Stream;
  init_redirect : RedirectMode }.

(** The request that [new Request(input, init)] yields for a string
    [input]; [proxy_url] is that string, which the constructor has parsed
    as the URL of the request. *)
Record ProxyRequest : Type := {
  proxy_url : jsstring;
  proxy_method : jsstring;
  proxy_headers : Headers;
  proxy_body : option Stream;
  proxy_redirect : RedirectMode }.

(** A response; its [status] is the unsigned short that the runtime
    holds, and [None] is a [null] body. *)
Record Response : Type := {
  status : Z;
  statusText : jsstring;
  response_headers : Headers;
  response_body : option Stream }.

Record ResponseInit : Type := {
  init_status : Z;
  init_statusText : jsstring;
  init_response_headers : Headers }.

(** An error object: what a rejected [fetch] carries and what a
    constructor throws. *)
Record Error : Type := { message : jsstring }.

(** The runtime under the handlers.  [fetch] resolves with a response
    ([inl]) or rejects with an error ([inr]).  [Request_error input init] is
    the error that [new Request(input, init)] throws, if it throws: when
    [input] does not parse as a URL, or [init] names a method or a body
    that the constructor refuses.  The three other members are the error
    objects of [new Response]; their messages are the runtime's own. *)
Record Runtime : Type := {
  fetch : ProxyRequest -> Response + Error;
  Request_error : jsstring -> RequestInit -> option Error;
  RangeError_status : Z -> Error;
  TypeError_statusText : jsstring -> Error;
  TypeError_null_body : Z -> Error }.

(** [new Request(input, init)] with a string [input]: the request
    ([inl]), or the error thrown ([inr]). *)
Definition new_Request (rt : Runtime) (input : jsstring) (init : RequestInit)
  : ProxyRequest + Error :=
  match Request_error rt input init with
  | Some thrown => inr thrown
  | None =>
      inl {| proxy_url := input;
             proxy_method := init_method init;
             proxy_headers := init_headers init;
             proxy_body := init_body init;
             proxy_redirect := init_redirect init |}
  end.

(** The members of an init dictionary that the source leaves out. *)
Definition status_only (s : Z) : ResponseInit :=
  {| init_status := s; init_statusText := []; init_response_headers := [] |}.

(** A response given as the init of another one: its status, status text
    and headers are read. *)
Definition as_init (r : Response) : ResponseInit :=
  {| init_status := status r;
     init_statusText := statusText r;
     init_response_headers := response_headers r |}.

(** The characters of a reason phrase: tab, space, the visible ASCII
    characters and the bytes from 80 to FF. *)
Definition reason_phrase_char (c : Z) : bool :=
  (c =? 9) || ((32 <=? c) && (c <=? 126)) || ((128 <=? c) && (c <=? 255)).

(** The statuses of a response that has no body. *)
Definition null_body_status (s : Z) : bool :=
  existsb (Z.eqb s) [101; 103; 204; 205; 304].

(** [new Response(body, init)]: the response ([inl]), or the error thrown
    ([inr]).  The constructor throws for a status outside 200..599, for a
    status text that is no reason phrase and for a body given with the
    status of a response without one.  Otherwise the headers of [init]
    are copied; a body made from a string is its UTF-8 octets and brings
    its content type when [init] names none. *)
Definition new_Response (rt : Runtime) (b : option BodyInit)
           (init : ResponseInit) : Response + Error :=
  if (init_status init <? 200) || (599 <? init_status init)
  then inr (RangeError_status rt (init_status init))
  else if negb (forallb reason_phrase_char (init_statusText init))
  then inr (TypeError_statusText rt (init_statusText init))
  else if match b with Some _ => true | None => false end
          && null_body_status (init_status init)
  then inr (TypeError_null_body rt (init_status init))
  else
    inl {| status := init_status init;
           statusText := init_statusText init;
           response_headers :=
             match b with
             | Some (FromString _) =>
                 if has (init_response_headers init) (js "Content-Type")
                 then init_response_headers init
                 else init_response_headers init
                      ++ [(js "Content-Type", js "text/plain;charset=UTF-8")]
             | _ => init_response_headers init
             end;
           response_body :=
             match b with
             | Some (FromString s) => Some (UTF8Encode s)
             | Some (FromStream st) => Some st
             | None => None
             end |}.

(** [response.body] handed to a constructor: the stream, or [null]. *)
Definition body_of (r : Response) : option BodyInit :=
  option_map FromStream (response_body r).

(** [r.headers.delete(name)] and [r.headers.set(name, value)] on the
    headers that [r] owns. *)
Definition headers_delete (r : Response) (name : jsstring) : Response :=
  {| status := status r;
     statusText := statusText r;
     response_headers := delete (response_headers r) name;
     response_body := response_body r |}.

Definition headers_set (r : Response) (name value : jsstring) : Response :=
  {| status := status r;
     statusText := statusText r;
     response_headers := set (response_headers r) name value;
     response_body := response_body r |}.

(** What a handler does besides returning or throwing: its calls of
    [fetch] and of [console.error], in order. *)
Inductive Event : Type :=
  | Fetched (r : ProxyRequest)
  | ConsoleError (label : jsstring) (e : Error).

Definition is_fetch (e : Event) : bool :=
  match e with Fetched _ => true | ConsoleError _ _ => false end.

Definition dquote : jsstring := [34].

Definition quoted (s : string) : jsstring := dquote ++ js s ++ dquote.

(** The lines of a template literal, a line feed between two of them. *)
Fixpoint join_lines (ls : list jsstring) : jsstring :=
  match ls with
  | [] => []
  | [l] => l
  | l :: more => l ++ 10 :: join_lines more
  end.

End Fetch.

(** ** [src/worker.js]: the target follows the marker [/proxx/] *)

Module Worker.
Import JS Fetch.

Definition htmlContent (hostname : jsstring) : jsstring :=
  join_lines [
    js "";
    js "    <!DOCTYPE html>";
    js "    <html lang=" ++ quoted "en" ++ js ">";
    js "    <head>";
    js "        <meta charset=" ++ quoted "UTF-8" ++ js ">";
    js "        <meta name=" ++ quoted "viewport" ++ js " content=" ++ quoted "width=device-width, initial-scale=1.0" ++ js ">";
    js "        <title>KENOS PROXX Root by ig0</title>";
    js "        <script src=" ++ quoted "https://cdn.tailwindcss.com" ++ js "></script>";
    js "        <style>";
    js "          body { background-color: black; font-family: sans-serif; color: white; display: flex; align-items: center; justify-content: center; height: 100vh; margin: 0; }";
    js "          .card { background-color: #1a1a1a; padding: 2rem; border-radius: 0.5rem; border: 1px solid white; text-align: center; }";
    js "        </style>";
    js "    </head>";
    js "    <body>";
    js "        <div class=" ++ quoted "card" ++ js ">";
    js "            <h1 class=" ++ quoted "text-3xl font-bold mb-4" ++ js ">KENOS PROXX Service Root</h1>";
    js "            <p class=" ++ quoted "text-sm text-gray-400 mb-6 uppercase tracking-widest font-semibold" ++ js ">by ig0</p>";
    js "            <p class=" ++ quoted "mb-6" ++ js ">This path is for worker routing only.</p>";
    js "            <p>Please return to the main homepage to use the PROXX application.</p>";
    js "            <a href=" ++ dquote ++ js "https://" ++ hostname ++ js "/" ++ dquote ++ js " class=" ++ quoted "mt-4 inline-block bg-white text-black font-semibold py-2 px-4 rounded hover:bg-gray-200 transition" ++ js ">Go to Homepage</a>";
    js "        </div>";
    js "    </body>";
    js "    </html>";
    js "  " ].

Definition createRootResponse (rt : Runtime) (hostname : jsstring) : Response + Error :=
  new_Response rt (Some (FromString (htmlContent hostname)))
    {| init_status := 200;
       init_statusText := [];
       init_response_headers := [(js "Content-Type", js "text/html")] |}.

Definition proxyPrefix : jsstring := js "/proxx/".

(** A handler returns a response ([inl]) or throws ([inr]); beside it
    stands the trace of what it did. *)
Definition handleRequest (rt : Runtime) (request : Request)
  : (Response + Error) * list Event :=
  let urlStartIndex := indexOf (pathname (url request)) proxyPrefix in
  if urlStartIndex =? -1 then
    (createRootResponse rt (hostname (url request)), [])
  else
    let encodedTargetUrl :=
      substring (pathname (url request)) (urlStartIndex + length proxyPrefix) in
    match decodeURIComponent encodedTargetUrl with
    | None =>
        (new_Response rt (Some (FromString (js "Invalid URL encoding.")))
           (status_only 400),
         [])
    | Some targetUrl =>
        if falsy targetUrl
           || (negb (startsWith targetUrl (js "http://"))
               && negb (startsWith targetUrl (js "https://")))
        then
          (new_Response rt
             (Some (FromString (js "Invalid target URL format.")))
             (status_only 400),
           [])
        else
          match
            new_Request rt targetUrl
              {| init_method := method request;
                 init_headers := headers request;
                 init_body := body request;
                 init_redirect := follow |}
          with
          | inr thrown => (inr thrown, [])
          | inl proxyRequest =>
              let catch (error : Error) :=
                (new_Response rt
                   (Some (FromString
                            (js "Failed to fetch target URL: " ++ message error)))
                   (status_only 500),
                 [Fetched proxyRequest;
                  ConsoleError (js "PROXX Fetch Error:") error]) in
              match fetch rt proxyRequest with
              | inr error => catch error
              | inl response =>
                  match new_Response rt (body_of response) (as_init response) with
                  | inr error => catch error
                  | inl newResponse =>
                      let newResponse :=
                        headers_delete newResponse (js "content-security-policy") in
                      let newResponse :=
                        headers_delete newResponse (js "x-frame-options") in
                      (inl newResponse, [Fetched proxyRequest])
                  end
              end
          end
    end.

(** The extraction step of [handleRequest] alone: the part of the path that
    goes to [decodeURIComponent], and [None] when the root page is the
    answer instead. *)
Definition encodedTargetUrl (request : Request) : option jsstring :=
  let urlStartIndex := indexOf (pathname (url request)) proxyPrefix in
  if urlStartIndex =? -1 then None
  else Some (substring (pathname (url request))
                       (urlStartIndex + length proxyPrefix)).

End Worker.

(** ** The worker behind a service binding: the target follows the
    leading slash *)

Module BindingWorker.
Import JS Fetch.

Definition htmlContent : jsstring :=
  join_lines [
    js "";
    js "    <!DOCTYPE html>";
    js "    <html lang=" ++ quoted "en" ++ js ">";
    js "    <head>";
    js "        <meta charset=" ++ quoted "UTF-8" ++ js ">";
    js "        <meta name=" ++ quoted "viewport" ++ js " content=" ++ quoted "width=device-width, initial-scale=1.0" ++ js ">";
    js "        <title>KENOS PROXX Root by ig0</title>";
    js "        <script src=" ++ quoted "https://cdn.tailwindcss.com" ++ js "></script>";
    js "        <style>";
    js "          body { background-color: black; font-family: sans-serif; color: white; display: flex; align-items: center; justify-content: center; height: 100vh; margin: 0; }";
    js "          .card { background-color: #1a1a1a; padding: 2rem; border-radius: 0.5rem; border: 1px solid white; text-align: center; }";
    js "        </style>";
    js "    </head>";
    js "    <body>";
    js "        <div class=" ++ quoted "card" ++ js ">";
    js "            <h1 class=" ++ quoted "text-3xl font-bold mb-4" ++ js ">KENOS PROXX Service Root</h1>";
    js "            <p class=" ++ quoted "text-sm text-gray-400 mb-6 uppercase tracking-widest font-semibold" ++ js ">by ig0</p>";
    js "            <p class=" ++ quoted "mb-6" ++ js ">This path is for worker routing only. When accessed directly, it cannot parse a URL.</p>";
    js "            <p>Please use the main Pages URL to enter your target site.</p>";
    js "        </div>";
    js "    </body>";
    js "    </html>";
    js "  " ].

Definition createRootResponse (rt : Runtime) : Response + Error :=
  new_Response rt (Some (FromString (htmlContent)))
    {| init_status := 200;
       init_statusText := [];
       init_response_headers := [(js "Content-Type", js "text/html")] |}.

(** A handler returns a response ([inl]) or throws ([inr]); beside it
    stands the trace of what it did. *)
Definition handleRequest (rt : Runtime) (request : Request)
  : (Response + Error) * list Event :=
  let path := pathname (url request) in
  if length path <=? 1 then (createRootResponse rt, [])
  else
    let encodedTargetUrl := substring path 1 in
    match decodeURIComponent encodedTargetUrl with
    | None =>
        (new_Response rt (Some (FromString (js "Invalid URL encoding.")))
           (status_only 400),
         [])
    | Some targetUrl =>
        if falsy targetUrl
           || (negb (startsWith targetUrl (js "http://"))
               && negb (startsWith targetUrl (js "https://")))
        then
          (new_Response rt
             (Some (FromString (js "Invalid target URL format. Must start with http:// or https://")))
             (status_only 400),
           [])
        else
          match
            new_Request rt targetUrl
              {| init_method := method request;
                 init_headers := headers request;
                 init_body := body request;
                 init_redirect := follow |}
          with
          | inr thrown => (inr thrown, [])
          | inl proxyRequest =>
              let catch (error : Error) :=
                (new_Response rt
                   (Some (FromString
                            (js "Failed to fetch target URL: " ++ message error)))
                   (status_only 500),
                 [Fetched proxyRequest;
                  ConsoleError (js "PROXX Fetch Error:") error]) in
              match fetch rt proxyRequest with
              | inr error => catch error
              | inl response =>
                  match new_Response rt (body_of response) (as_init response) with
                  | inr error => catch error
                  | inl newResponse =>
                      let newResponse :=
                        headers_delete newResponse (js "content-security-policy") in
                      let newResponse :=
                        headers_delete newResponse (js "x-frame-options") in
                      let newResponse :=
                        headers_set newResponse
                          (js "Access-Control-Allow-Origin") (js "*") in
                      (inl newResponse, [Fetched proxyRequest])
                  end
              end
          end
    end.

(** The extraction step of [handleRequest] alone: the part of the path that
    goes to [decodeURIComponent], and [None] when the root page is the
    answer instead. *)
Definition encodedTargetUrl (request : Request) : option jsstring :=
  let path := pathname (url request) in
  if length path <=? 1 then None else Some (substring path 1).

End BindingWorker.

Import JS Fetch.

(** ** Predicates of the properties *)

(** The target begins with one of the two schemes. *)
Definition http_scheme (t : jsstring) : Prop :=
  startsWith t (js "http://") = true \/ startsWith t (js "https://") = true.

(** The head of [t] is [p] up to the case of its letters, and is not [p]. *)
Definition differs_only_in_case (t p : jsstring) : Prop :=
  exists q r,
    t = q ++ r /\ q <> p /\ map byte_lowercase q = map byte_lowercase p.

(** The init dictionary that both handlers give to [new Request]. *)
Definition forward_init (request : Request) : RequestInit :=
  {| init_method := method request;
     init_headers := headers request;
     init_body := body request;
     init_redirect := follow |}.

(** The outbound request that carries [request] to [target]. *)
Definition forwarded (request : Request) (target : jsstring) : ProxyRequest :=
  {| proxy_url := target;
     proxy_method := method request;
     proxy_headers := headers request;
     proxy_body := body request;
     proxy_redirect := follow |}.

(** A response with the given status whose body is [text], served as plain
    text. *)
Definition plain_text (r : Response) (code : Z) (text : jsstring) : Prop :=
  status r = code
  /\ response_body r = Some (UTF8Encode text)
  /\ get (response_headers r) (js "Content-Type")
     = Some (js "text/plain;charset=UTF-8").

(** A response with status 200 whose body is [html], served as HTML. *)
Definition html_page (r : Response) (html : jsstring) : Prop :=
  status r = 200
  /\ response_body r = Some (UTF8Encode html)
  /\ get (response_headers r) (js "Content-Type") = Some (js "text/html").

(** A header that is none of the three the handlers delete or set. *)
Definition untouched (h : jsstring * jsstring) : bool :=
  negb (named (js "content-security-policy") h)
  && negb (named (js "x-frame-options") h)
  && negb (named (js "Access-Control-Allow-Origin") h).

(** An upstream response that [new Response] accepts as the init of
    another one: its status is in 200..599, its status text is a reason
    phrase, and it has no body if its status is that of a response
    without one. *)
Definition relayable (upstream : Response) : bool :=
  (200 <=? status upstream) && (status upstream <=? 599)
  && forallb reason_phrase_char (statusText upstream)
  && negb (match response_body upstream with Some _ => true | None => false end
           && null_body_status (status upstream)).

(** The plain text that [new Response(text, { status: code })] yields. *)
Definition text_response (code : Z) (text : jsstring) : Response :=
  {| status := code;
     statusText := [];
     response_headers := [(js "Content-Type", js "text/plain;charset=UTF-8")];
     response_body := Some (UTF8Encode text) |}.

(** The HTML page that [new Response(html, ...)] of [createRootResponse]
    yields. *)
Definition html_response (html : jsstring) : Response :=
  {| status := 200;
     statusText := [];
     response_headers := [(js "Content-Type", js "text/html")];
     response_body := Some (UTF8Encode html) |}.

(** The status of the answer, when the handler has returned one. *)
Definition status_of (outcome : Response + Error) : option Z :=
  match outcome with
  | inl r => Some (status r)
  | inr _ => None
  end.

(** The catch block of both handlers, for the request [pr] that was
    fetched. *)
Definition caught (rt : Runtime) (pr : ProxyRequest) (error : Error)
  : (Response + Error) * list Event :=
  (new_Response rt
     (Some (FromString (js "Failed to fetch target URL: " ++ message error)))
     (status_only 500),
   [Fetched pr; ConsoleError (js "PROXX Fetch Error:") error]).

(** What the try block makes of the response that [new Response] has made
    from the upstream one; [cors] is for the handler behind the binding. *)
Definition relayed (cors : bool) (newResponse : Response) : Response :=
  let newResponse :=
    headers_delete
      (headers_delete newResponse (js "content-security-policy"))
      (js "x-frame-options") in
  if cors
  then headers_set newResponse (js "Access-Control-Allow-Origin") (js "*")
  else newResponse.

(** The ways a handler ends.  With no fetch: by the root page or one of the
    two 400 answers, or by throwing what [new Request] throws.  After one
    fetch: with the status of the upstream, when the fetch resolved with a
    response that [new Response] accepts; with the logged 500 answer, when
    it resolved with another response or was rejected. *)
Definition answered (rt : Runtime) (html format_message : jsstring)
           (run : (Response + Error) * list Event) : Prop :=
  (snd run = []
   /\ exists r,
        fst run = inl r
        /\ (html_page r html
            \/ plain_text r 400 (js "Invalid URL encoding.")
            \/ plain_text r 400 format_message))
  \/ (exists target init thrown,
        Request_error rt target init = Some thrown
        /\ run = (inr thrown, []))
  \/ (exists pr upstream r,
        fetch rt pr = inl upstream
        /\ relayable upstream = true
        /\ run = (inl r, [Fetched pr])
        /\ status r = status upstream)
  \/ (exists pr upstream error r,
        fetch rt pr = inl upstream
        /\ new_Response rt (body_of upstream) (as_init upstream) = inr error
        /\ run = (inl r, [Fetched pr;
                          ConsoleError (js "PROXX Fetch Error:") error])
        /\ plain_text r 500
             (js "Failed to fetch target URL: " ++ message error))
  \/ (exists pr error r,
        fetch rt pr = inr error
        /\ run = (inl r, [Fetched pr;
                          ConsoleError (js "PROXX Fetch Error:") error])
        /\ plain_text r 500
             (js "Failed to fetch target URL: " ++ message error)).

(** *** Concrete requests, runtimes and upstream answers *)

Module Examples.

Definition request_at (path : string) : Request :=
  {| url := {| hostname := js "kenos.example"; pathname := js path |};
     method := js "POST";
     headers := [(js "Host", js "kenos.example");
                 (js "Authorization", js "Bearer abc")];
     body := Some [123; 125] |}.

(** The URL parser finds no host in these two. *)
Definition no_host (input : jsstring) : bool :=
  string_eqb input (js "http://") || string_eqb input (js "https://").

(** A runtime around a given [fetch]: [new Request] throws for an input
    without a host. *)
Definition runtime (f : ProxyRequest -> Response + Error) : Runtime :=
  {| fetch := f;
     Request_error :=
       fun input _ =>
         if no_host input then Some {| message := js "Invalid URL: " ++ input |}
         else None;
     RangeError_status :=
       fun _ => {| message := js "The status is outside the range 200 to 599." |};
     TypeError_statusText :=
       fun _ => {| message := js "The status text is not a reason phrase." |};
     TypeError_null_body :=
       fun _ => {| message := js "A response with this status has no body." |} |}.

Definition upstream : Response :=
  {| status := 200;
     statusText := js "OK";
     response_headers :=
       [(js "Content-Type", js "text/html; charset=utf-8");
        (js "Content-Security-Policy", js "default-src 'self'");
        (js "Set-Cookie", js "sid=1; Path=/");
        (js "X-Frame-Options", js "DENY")];
     response_body := Some [60; 112; 62; 104; 105; 60; 47; 112; 62] |}.

Definition fetch_ok : Runtime := runtime (fun _ => inl upstream).

Definition fetch_refused : Runtime :=
  runtime (fun _ => inr {| message := js "connection refused" |}).

(** An upstream answer with a status that no response can be made with. *)
Definition upstream_999 : Response :=
  {| status := 999;
     statusText := js "Request denied";
     response_headers := [(js "Content-Type", js "text/html")];
     response_body := Some [60; 112; 62; 110; 111; 60; 47; 112; 62] |}.

Definition fetch_999 : Runtime := runtime (fun _ => inl upstream_999).

End Examples.

(** [p] occurs in [s]. *)
Definition occurs_in (p s : jsstring) : Prop :=
  exists a b, s = a ++ p ++ b.

(** A Unicode scalar value: a code point that is no surrogate. *)
Definition scalar_value (cp : Z) : Prop :=
  0 <= cp <= 1114111 /\ is_lead cp = false /\ is_trail cp = false.

(** No surrogate of [s] stands without its partner. *)
Fixpoint well_formed (s : jsstring) : bool :=
  match s with
  | [] => true
  | C :: t =>
      if is_lead C then
        match t with
        | D :: t' => is_trail D && well_formed t'
        | [] => false
        end
      else negb (is_trail C) && well_formed t
  end.

(** A [%] of [s] that is not followed by two hexadecimal digits. *)
Definition malformed_escape (s : jsstring) : Prop :=
  exists a b,
    s = a ++ 37 :: b
    /\ match b with
       | h1 :: h2 :: _ => ParseHexOctet h1 h2 = None
       | _ => True
       end.

(** Every [%] of [s], read from the left, is followed by two hexadecimal
    digits. *)
Fixpoint escapes_ok (s : jsstring) : bool :=
  match s with
  | [] => true
  | C :: t =>
      if C =? 37 then
        match t with
        | h1 :: h2 :: t1 =>
            match ParseHexOctet h1 h2 with
            | Some _ => escapes_ok t1
            | None => false
            end
        | _ => false
        end
      else escapes_ok t
  end.

(** Every code unit of [s] is an ASCII character, as in the path of a
    parsed URL. *)
Definition ascii_only (s : jsstring) : Prop :=
  forall c, In c s -> 0 <= c < 128.

(** *** More upstream answers *)

Module MoreExamples.

(** An upstream answer without the two headers, with its CORS header. *)
Definition plain_upstream : Response :=
  {| status := 404;
     statusText := js "Not Found";
     response_headers :=
       [(js "Content-Type", js "text/plain");
        (js "access-control-allow-origin", js "*");
        (js "Set-Cookie", js "a=1");
        (js "Set-Cookie", js "b=2")];
     response_body := Some [110; 111] |}.

Definition fetch_plain : Runtime := Examples.runtime (fun _ => inl plain_upstream).

(** The answers of a first relay, coming back as upstream answers. *)
Definition fetch_relayed : Runtime :=
  Examples.runtime (fun _ => inl (relayed false Examples.upstream)).

Definition fetch_relayed_binding : Runtime :=
  Examples.runtime (fun _ => inl (relayed true Examples.upstream)).

End MoreExamples.

(** ** Tactics *)

(** Linear arithmetic with quotients and remainders by constants. *)
Ltac dlia := Z.div_mod_to_equations; lia.

(** Boolean tests in the hypotheses become arithmetic facts. *)
Ltac bool_to_Z :=
  repeat match goal with
         | H : _ && _ = true |- _ => apply andb_true_iff in H as [? ?]
         | H : _ && _ = false |- _ => apply andb_false_iff in H as [?|?]
         | H : _ || _ = false |- _ => apply orb_false_iff in H as [? ?]
         | H : (_ <=? _) = true |- _ => apply Z.leb_le in H
         | H : (_ <=? _) = false |- _ => apply Z.leb_gt in H
         | H : (_ <? _) = true |- _ => apply Z.ltb_lt in H
         | H : (_ <? _) = false |- _ => apply Z.ltb_ge in H
         | H : (_ =? _) = true |- _ => apply Z.eqb_eq in H
         | H : (_ =? _) = false |- _ => apply Z.eqb_neq in H
         end.

(** Tests of the goal that arithmetic settles are evaluated. *)
Ltac decide_tests :=
  repeat match goal with
         | |- context [?a <=? ?b] =>
             first [ replace (a <=? b) with true by (symmetry; apply Z.leb_le; dlia)
                   | replace (a <=? b) with false by (symmetry; apply Z.leb_gt; dlia) ]
         | |- context [?a <? ?b] =>
             first [ replace (a <? b) with true by (symmetry; apply Z.ltb_lt; dlia)
                   | replace (a <? b) with false by (symmetry; apply Z.ltb_ge; dlia) ]
         end.

(** ** Strings *)

Section Strings.

Lemma startsWith_app (p r : jsstring) : startsWith (p ++ r) p = true.
Proof.
  induction p as [|x p IH]; simpl.
  - destruct r; reflexivity.
  - now rewrite Z.eqb_refl, IH.
Qed.

Lemma startsWith_true (s p : jsstring) :
  startsWith s p = true -> exists r, s = p ++ r.
Proof.
  revert s; induction p as [|x p IH]; intros s H.
  - now exists s.
  - destruct s as [|c s]; simpl in H; [discriminate|].
    apply andb_true_iff in H as [Hc Hs].
    apply Z.eqb_eq in Hc; subst c.
    destruct (IH _ Hs) as [r ->]. now exists r.
Qed.

Lemma startsWith_nil (s : jsstring) : startsWith s [] = true.
Proof. now destruct s. Qed.

Lemma indexOf_eq (s p : jsstring) :
  indexOf s p =
  if startsWith s p then 0
  else match s with
       | [] => -1
       | _ :: t => if indexOf t p =? -1 then -1 else indexOf t p + 1
       end.
Proof. destruct s; reflexivity. Qed.

Lemma indexOf_lower (s p : jsstring) : -1 <= indexOf s p.
Proof.
  induction s as [|c s IH]; rewrite indexOf_eq;
    destruct (startsWith _ p); try lia.
  destruct (indexOf s p =? -1); lia.
Qed.

Lemma indexOf_found (s p : jsstring) :
  indexOf s p <> -1 ->
  exists a b, s = a ++ p ++ b /\ length a = indexOf s p.
Proof.
  induction s as [|c s IH]; rewrite indexOf_eq;
    destruct (startsWith _ p) eqn:E.
  - intros _. apply startsWith_true in E as [r E]. now exists [], r.
  - congruence.
  - intros _. apply startsWith_true in E as [r E]. now exists [], r.
  - destruct (indexOf s p =? -1) eqn:K; [congruence|].
    intros _. apply Z.eqb_neq in K.
    destruct (IH K) as (a & b & Hs & Ha).
    exists (c :: a), b. split; [now rewrite Hs|].
    unfold length in *. cbn [List.length]. lia.
Qed.

Lemma indexOf_occurs (a p b : jsstring) : indexOf (a ++ p ++ b) p <> -1.
Proof.
  induction a as [|c a IH]; rewrite indexOf_eq.
  - cbn [app]. now rewrite startsWith_app.
  - destruct (startsWith _ p); [discriminate|]. cbn [app].
    destruct (indexOf (a ++ p ++ b) p =? -1) eqn:K.
    + apply Z.eqb_eq in K. contradiction.
    + pose proof (indexOf_lower (a ++ p ++ b) p). lia.
Qed.

(** [indexOf] answers -1 exactly on the strings without an occurrence. *)
Lemma indexOf_absent (s p : jsstring) :
  indexOf s p = -1 <-> ~ occurs_in p s.
Proof.
  split.
  - intros H (a & b & ->). now apply (indexOf_occurs a p b).
  - intros H. destruct (Z.eq_dec (indexOf s p) (-1)) as [E|E]; [exact E|].
    exfalso. apply H. destruct (indexOf_found s p E) as (a & b & Hs & _).
    now exists a, b.
Qed.

Lemma indexOf_at_start (p r : jsstring) : indexOf (p ++ r) p = 0.
Proof. now rewrite indexOf_eq, startsWith_app. Qed.

Lemma substring_app (p r : jsstring) : substring (p ++ r) (length p) = r.
Proof.
  unfold substring, length. rewrite Nat2Z.id.
  induction p; simpl; auto.
Qed.

Lemma startsWith_app_long (s r p : jsstring) :
  (List.length p <= List.length s)%nat ->
  startsWith (s ++ r) p = startsWith s p.
Proof.
  revert s; induction p as [|x p IH]; intros s H.
  - now rewrite !startsWith_nil.
  - destruct s as [|c s]; cbn [List.length] in H; [lia|].
    cbn [app startsWith]. rewrite IH by lia. reflexivity.
Qed.

Lemma length_app (a b : jsstring) : length (a ++ b) = length a + length b.
Proof. unfold length. rewrite List.length_app. lia. Qed.

Lemma indexOf_found_length (s p : jsstring) :
  indexOf s p <> -1 -> (List.length p <= List.length s)%nat.
Proof.
  intros (a & b & -> & _)%indexOf_found. rewrite !List.length_app. lia.
Qed.

(** The first occurrence stays the first when the string goes on. *)
Lemma indexOf_app (s r p : jsstring) :
  indexOf s p <> -1 -> indexOf (s ++ r) p = indexOf s p.
Proof.
  induction s as [|c t IH]; intros H.
  - pose proof (indexOf_found_length [] p H) as L.
    destruct p; [|simpl in L; lia].
    cbn [app]. now rewrite !indexOf_eq, !startsWith_nil.
  - pose proof (indexOf_found_length _ p H) as L.
    rewrite indexOf_eq in H. rewrite (indexOf_eq (c :: t)).
    rewrite (indexOf_eq ((c :: t) ++ r)), (startsWith_app_long _ r p L).
    destruct (startsWith (c :: t) p); [reflexivity|].
    cbn [app]. destruct (indexOf t p =? -1) eqn:K; [congruence|].
    rewrite IH, K by now apply Z.eqb_neq. reflexivity.
Qed.

(** A literal of the source is a string. *)
Lemma is_string_js (s : string) : is_string (js s).
Proof.
  unfold is_string, js. induction s as [|a s IH]; simpl; constructor; auto.
  unfold code_unit. pose proof (N_ascii_bounded a). lia.
Qed.

Lemma substring_whole (s : jsstring) : substring s (length s) = [].
Proof.
  rewrite <- (app_nil_r s) at 1. apply substring_app.
Qed.

End Strings.

(** ** Percent-encoding and percent-decoding *)

Section URI.

Lemma hexval_hexdigit (d : Z) : 0 <= d < 16 -> hexval (hexdigit d) = Some d.
Proof.
  intros H.
  assert (d = 0 \/ d = 1 \/ d = 2 \/ d = 3 \/ d = 4 \/ d = 5 \/ d = 6 \/ d = 7
          \/ d = 8 \/ d = 9 \/ d = 10 \/ d = 11 \/ d = 12 \/ d = 13 \/ d = 14
          \/ d = 15) as E by lia.
  repeat (destruct E as [-> | E]; [reflexivity|]). now subst.
Qed.

Lemma ParseHexOctet_pct (b : Z) :
  0 <= b < 256 ->
  ParseHexOctet (hexdigit (b / 16)) (hexdigit (b mod 16)) = Some b.
Proof.
  intros H. unfold ParseHexOctet.
  rewrite !hexval_hexdigit by dlia. f_equal. dlia.
Qed.

Lemma ParseHexOctet_range (h1 h2 B : Z) :
  ParseHexOctet h1 h2 = Some B -> 0 <= B < 256.
Proof.
  unfold ParseHexOctet, hexval.
  repeat match goal with
         | |- context [if ?c then _ else _] => destruct c eqn:?
         end; intros E; try discriminate;
    match type of E with Some ?x = Some ?y => assert (x = y) by congruence end;
    bool_to_Z; lia.
Qed.

(** How [Decode] goes on, by the shape of the head of the string. *)

Lemma Decode_literal (ps : jsstring) (C : Z) (t : jsstring) :
  C <> 37 -> Decode ps (C :: t) = option_map (cons C) (Decode ps t).
Proof.
  intros H. cbn [Decode]. apply Z.eqb_neq in H. now rewrite H.
Qed.

Lemma Decode_one (ps : jsstring) (h1 h2 B : Z) (t : jsstring) :
  ParseHexOctet h1 h2 = Some B -> leading_ones B = 0%nat ->
  Decode ps (37 :: h1 :: h2 :: t)
  = option_map (app (if mem B ps then [37; h1; h2] else [B])) (Decode ps t).
Proof.
  intros H L. cbn [Decode Z.eqb Pos.eqb negb]. now rewrite H, L.
Qed.

Lemma Decode_two (ps : jsstring) (h1 h2 x1 y1 B B1 : Z) (t : jsstring) :
  ParseHexOctet h1 h2 = Some B -> leading_ones B = 2%nat ->
  ParseHexOctet x1 y1 = Some B1 ->
  Decode ps (37 :: h1 :: h2 :: 37 :: x1 :: y1 :: t)
  = decoded [B; B1] (Decode ps t).
Proof.
  intros H L H1. cbn [Decode Z.eqb Pos.eqb negb escape_at].
  now rewrite H, L, H1.
Qed.

Lemma Decode_three (ps : jsstring) (h1 h2 x1 y1 x2 y2 B B1 B2 : Z)
      (t : jsstring) :
  ParseHexOctet h1 h2 = Some B -> leading_ones B = 3%nat ->
  ParseHexOctet x1 y1 = Some B1 -> ParseHexOctet x2 y2 = Some B2 ->
  Decode ps (37 :: h1 :: h2 :: 37 :: x1 :: y1 :: 37 :: x2 :: y2 :: t)
  = decoded [B; B1; B2] (Decode ps t).
Proof.
  intros H L H1 H2. cbn [Decode Z.eqb Pos.eqb negb escape_at].
  now rewrite H, L, H1, H2.
Qed.

Lemma Decode_four (ps : jsstring) (h1 h2 x1 y1 x2 y2 x3 y3 B B1 B2 B3 : Z)
      (t : jsstring) :
  ParseHexOctet h1 h2 = Some B -> leading_ones B = 4%nat ->
  ParseHexOctet x1 y1 = Some B1 -> ParseHexOctet x2 y2 = Some B2 ->
  ParseHexOctet x3 y3 = Some B3 ->
  Decode ps (37 :: h1 :: h2 :: 37 :: x1 :: y1 :: 37 :: x2 :: y2
                :: 37 :: x3 :: y3 :: t)
  = decoded [B; B1; B2; B3] (Decode ps t).
Proof.
  intros H L H1 H2 H3. cbn [Decode Z.eqb Pos.eqb negb escape_at].
  now rewrite H, L, H1, H2, H3.
Qed.

Lemma scalar_value_cases (cp : Z) :
  scalar_value cp -> 0 <= cp < 55296 \/ 57344 <= cp <= 1114111.
Proof.
  unfold scalar_value, is_lead, is_trail. intros (R & L & T).
  bool_to_Z; lia.
Qed.

Lemma utf8_roundtrip (cp : Z) :
  scalar_value cp -> 128 <= cp -> utf8_decode (utf8_encode cp) = Some cp.
Proof.
  intros S%scalar_value_cases G. unfold utf8_encode.
  destruct (cp <? 128) eqn:E1; bool_to_Z; [lia|].
  destruct (cp <? 2048) eqn:E2; [|destruct (cp <? 65536) eqn:E3]; bool_to_Z;
    unfold utf8_decode, is_continuation, is_lead, is_trail.
  - replace ((192 + cp / 64) mod 32 * 64 + (128 + cp mod 64) mod 64) with cp by dlia.
    decide_tests. reflexivity.
  - replace ((224 + cp / 4096) mod 16 * 4096 + (128 + cp / 64 mod 64) mod 64 * 64
             + (128 + cp mod 64) mod 64) with cp by dlia.
    decide_tests. cbn [andb].
    destruct S as [S|S]; decide_tests; reflexivity.
  - replace ((240 + cp / 262144) mod 8 * 262144
             + (128 + cp / 4096 mod 64) mod 64 * 4096
             + (128 + cp / 64 mod 64) mod 64 * 64
             + (128 + cp mod 64) mod 64) with cp by dlia.
    decide_tests. reflexivity.
Qed.

Lemma UTF16EncodeCodePoint_unit (C : Z) :
  code_unit C -> UTF16EncodeCodePoint C = [C].
Proof.
  unfold code_unit, UTF16EncodeCodePoint. intros H. now decide_tests.
Qed.

Lemma UTF16EncodeCodePoint_pair (C D : Z) :
  is_lead C = true -> is_trail D = true ->
  UTF16EncodeCodePoint (pair_code_point C D) = [C; D].
Proof.
  unfold is_lead, is_trail, UTF16EncodeCodePoint, pair_code_point.
  intros HC HD. bool_to_Z. decide_tests. f_equal; [|f_equal]; dlia.
Qed.

Lemma pair_code_point_scalar (C D : Z) :
  is_lead C = true -> is_trail D = true -> scalar_value (pair_code_point C D).
Proof.
  unfold scalar_value, pair_code_point, is_lead, is_trail.
  intros HC HD. bool_to_Z. repeat split; [lia|lia| |]; now decide_tests.
Qed.

Lemma code_unit_scalar (C : Z) :
  code_unit C -> is_lead C = false -> is_trail C = false -> scalar_value C.
Proof. unfold code_unit, scalar_value. intuition lia. Qed.

(** The escapes of a scalar value decode to its UTF-16 form. *)
Lemma Decode_utf8 (cp : Z) (t : jsstring) :
  scalar_value cp ->
  Decode [] (flat_map pct (utf8_encode cp) ++ t)
  = option_map (app (UTF16EncodeCodePoint cp)) (Decode [] t).
Proof.
  intros S. pose proof (scalar_value_cases cp S) as R.
  destruct (Z.lt_ge_cases cp 128) as [G|G].
  - assert (utf8_encode cp = [cp]) as E
        by (unfold utf8_encode; now decide_tests).
    rewrite E. cbn [flat_map pct app].
    rewrite (Decode_one [] _ _ cp).
    + unfold UTF16EncodeCodePoint. now decide_tests.
    + apply ParseHexOctet_pct; lia.
    + unfold leading_ones. now decide_tests.
  - pose proof (utf8_roundtrip cp S G) as U. revert U. unfold utf8_encode.
    destruct (cp <? 128) eqn:E1; bool_to_Z; [lia|].
    destruct (cp <? 2048) eqn:E2; [|destruct (cp <? 65536) eqn:E3];
      bool_to_Z; intros U; cbn [flat_map pct app].
    + rewrite (Decode_two [] _ _ _ _ (192 + cp / 64) (128 + cp mod 64)).
      * unfold decoded. now rewrite U.
      * apply ParseHexOctet_pct; dlia.
      * unfold leading_ones. now decide_tests.
      * apply ParseHexOctet_pct; dlia.
    + rewrite (Decode_three [] _ _ _ _ _ _ (224 + cp / 4096)
                 (128 + (cp / 64) mod 64) (128 + cp mod 64)).
      * unfold decoded. now rewrite U.
      * apply ParseHexOctet_pct; dlia.
      * unfold leading_ones. now decide_tests.
      * apply ParseHexOctet_pct; dlia.
      * apply ParseHexOctet_pct; dlia.
    + rewrite (Decode_four [] _ _ _ _ _ _ _ _ (240 + cp / 262144)
                 (128 + (cp / 4096) mod 64) (128 + (cp / 64) mod 64)
                 (128 + cp mod 64)).
      * unfold decoded. now rewrite U.
      * apply ParseHexOctet_pct; dlia.
      * unfold leading_ones. now decide_tests.
      * apply ParseHexOctet_pct; dlia.
      * apply ParseHexOctet_pct; dlia.
      * apply ParseHexOctet_pct; dlia.
Qed.

Lemma unreserved_not_percent (C : Z) : mem C uriUnreserved = true -> C <> 37.
Proof. intros H ->. vm_compute in H. discriminate. Qed.

Lemma Encode_Decode_bounded (n : nat) :
  forall u e, (List.length u <= n)%nat -> is_string u ->
              encodeURIComponent u = Some e -> decodeURIComponent e = Some u.
Proof.
  unfold encodeURIComponent, decodeURIComponent.
  induction n as [|n IH]; intros u e Hn Hu He.
  - destruct u; [|simpl in Hn; lia]. now injection He as <-.
  - destruct u as [|C t]; [now injection He as <-|].
    inversion Hu as [|? ? HC Ht]; subst. cbn [Encode] in He.
    cbn [List.length] in Hn.
    destruct (mem C uriUnreserved) eqn:M.
    { destruct (Encode uriUnreserved t) as [e'|] eqn:Et; [|discriminate].
      injection He as <-.
      rewrite (Decode_literal [] C e' (unreserved_not_percent C M)).
      rewrite (IH t e'); auto. lia. }
    destruct (is_trail C) eqn:T; [discriminate|].
    destruct (is_lead C) eqn:L.
    + destruct t as [|D t']; [discriminate|].
      destruct (is_trail D) eqn:TD; [|discriminate].
      destruct (Encode uriUnreserved t') as [e'|] eqn:Et; [|discriminate].
      injection He as <-. inversion Ht; subst. cbn [List.length] in Hn.
      rewrite Decode_utf8 by now apply pair_code_point_scalar.
      rewrite (IH t' e'); auto; [|lia].
      cbn [option_map]. now rewrite UTF16EncodeCodePoint_pair.
    + destruct (Encode uriUnreserved t) as [e'|] eqn:Et; [|discriminate].
      injection He as <-.
      rewrite Decode_utf8 by now apply code_unit_scalar.
      rewrite (IH t e'); auto; [|lia].
      cbn [option_map]. now rewrite UTF16EncodeCodePoint_unit.
Qed.

(** Decoding undoes encoding, on every string that can be encoded. *)
Lemma decodeURIComponent_encodeURIComponent (u e : jsstring) :
  is_string u -> encodeURIComponent u = Some e -> decodeURIComponent e = Some u.
Proof. apply (Encode_Decode_bounded (List.length u)). lia. Qed.

Lemma unreserved_not_surrogate (C : Z) :
  mem C uriUnreserved = true -> is_lead C = false /\ is_trail C = false.
Proof.
  intros M. unfold mem in M. apply existsb_exists in M as (x & I & E).
  apply Z.eqb_eq in E. subst x.
  vm_compute in I.
  repeat (destruct I as [<-|I]; [split; reflexivity|]). destruct I.
Qed.

Lemma Encode_defined_bounded (n : nat) :
  forall u, (List.length u <= n)%nat -> well_formed u = true ->
            exists e, encodeURIComponent u = Some e.
Proof.
  unfold encodeURIComponent.
  induction n as [|n IH]; intros u Hn W.
  { destruct u; [now exists []|simpl in Hn; lia]. }
  destruct u as [|C t]; [now exists []|].
  cbn [List.length] in Hn. cbn [Encode well_formed] in *.
  destruct (mem C uriUnreserved) eqn:M.
  - destruct (unreserved_not_surrogate C M) as [L T]. rewrite L, T in W.
    destruct (IH t) as [e' ->]; [lia|exact W|]. eexists; reflexivity.
  - destruct (is_lead C) eqn:L.
    + assert (is_trail C = false) as ->.
      { unfold is_lead, is_trail in *. bool_to_Z. apply andb_false_iff.
        left. apply Z.leb_gt. lia. }
      destruct t as [|D t']; [discriminate|].
      apply andb_true_iff in W as [TD W]. rewrite TD.
      cbn [List.length] in Hn.
      destruct (IH t') as [e' ->]; [lia|exact W|]. eexists; reflexivity.
    + apply andb_true_iff in W as [T W]. apply negb_true_iff in T. rewrite T.
      destruct (IH t) as [e' ->]; [lia|exact W|]. eexists; reflexivity.
Qed.

(** [encodeURIComponent] throws on no well-formed string. *)
Lemma encodeURIComponent_defined (u : jsstring) :
  well_formed u = true -> exists e, encodeURIComponent u = Some e.
Proof. apply (Encode_defined_bounded (List.length u)). lia. Qed.

(** *** Malformed escapes *)

Lemma escape_at_some (p x y B : Z) :
  escape_at p x y = Some B -> p = 37 /\ ParseHexOctet x y = Some B.
Proof.
  unfold escape_at. destruct (p =? 37) eqn:E; [|discriminate].
  bool_to_Z. auto.
Qed.

Lemma ParseHexOctet_percent_l (h : Z) : ParseHexOctet 37 h = None.
Proof. reflexivity. Qed.

Lemma ParseHexOctet_percent_r (h : Z) : ParseHexOctet h 37 = None.
Proof. unfold ParseHexOctet. now destruct (hexval h). Qed.

Lemma decoded_some (octets : list Z) (rest : option jsstring) (r : jsstring) :
  decoded octets rest = Some r -> exists r', rest = Some r'.
Proof.
  unfold decoded. destruct (utf8_decode octets); [|discriminate].
  destruct rest as [r'|]; [|discriminate]. now exists r'.
Qed.

Lemma option_map_some {A B : Type} (f : A -> B) (o : option A) (b : B) :
  option_map f o = Some b -> exists a, o = Some a.
Proof. destruct o as [a|]; [|discriminate]. now exists a. Qed.

Lemma Decode_escapes_bounded (ps : jsstring) (n : nat) :
  forall s r, (List.length s <= n)%nat ->
              Decode ps s = Some r -> escapes_ok s = true.
Proof.
  induction n as [|n IH]; intros s r Hn H.
  { destruct s; [reflexivity|simpl in Hn; lia]. }
  destruct s as [|C t]; [reflexivity|].
  cbn [Decode] in H. cbn [escapes_ok]. cbn [List.length] in Hn.
  destruct (C =? 37) eqn:EC; cbn [negb] in H.
  2:{ apply option_map_some in H as [r' H]. apply (IH t r'); [lia|exact H]. }
  destruct t as [|h1 [|h2 t1]]; try discriminate.
  cbn [List.length] in Hn.
  destruct (ParseHexOctet h1 h2) as [B|] eqn:P; [|discriminate].
  destruct (leading_ones B) as [|[|[|[|[|k]]]]]; try discriminate.
  - apply option_map_some in H as [r' H]. apply (IH t1 r'); [lia|exact H].
  - destruct t1 as [|p1 [|x1 [|y1 t2]]]; try discriminate.
    destruct (escape_at p1 x1 y1) as [B1|] eqn:E1; [|discriminate].
    apply escape_at_some in E1 as [-> E1].
    apply decoded_some in H as [r' H].
    cbn [escapes_ok Z.eqb Pos.eqb List.length] in *. rewrite E1.
    apply (IH t2 r'); [lia|exact H].
  - destruct t1 as [|p1 [|x1 [|y1 [|p2 [|x2 [|y2 t2]]]]]]; try discriminate.
    destruct (escape_at p1 x1 y1) as [B1|] eqn:E1; [|discriminate].
    destruct (escape_at p2 x2 y2) as [B2|] eqn:E2; [|discriminate].
    apply escape_at_some in E1 as [-> E1].
    apply escape_at_some in E2 as [-> E2].
    apply decoded_some in H as [r' H].
    cbn [escapes_ok Z.eqb Pos.eqb List.length] in *. rewrite E1, E2.
    apply (IH t2 r'); [lia|exact H].
  - destruct t1 as [|p1 [|x1 [|y1 [|p2 [|x2 [|y2 [|p3 [|x3 [|y3 t2]]]]]]]]];
      try discriminate.
    destruct (escape_at p1 x1 y1) as [B1|] eqn:E1; [|discriminate].
    destruct (escape_at p2 x2 y2) as [B2|] eqn:E2; [|discriminate].
    destruct (escape_at p3 x3 y3) as [B3|] eqn:E3; [|discriminate].
    apply escape_at_some in E1 as [-> E1].
    apply escape_at_some in E2 as [-> E2].
    apply escape_at_some in E3 as [-> E3].
    apply decoded_some in H as [r' H].
    cbn [escapes_ok Z.eqb Pos.eqb List.length] in *. rewrite E1, E2, E3.
    apply (IH t2 r'); [lia|exact H].
Qed.

Lemma escapes_ok_at_bounded (n : nat) :
  forall a b, (List.length a <= n)%nat ->
              escapes_ok (a ++ 37 :: b) = true ->
              exists h1 h2 b', b = h1 :: h2 :: b' /\ ParseHexOctet h1 h2 <> None.
Proof.
  assert (forall b, escapes_ok (37 :: b) = true ->
                    exists h1 h2 b', b = h1 :: h2 :: b'
                                     /\ ParseHexOctet h1 h2 <> None) as Base.
  { intros b H. cbn [escapes_ok Z.eqb Pos.eqb] in H.
    destruct b as [|h1 [|h2 b']]; try discriminate.
    exists h1, h2, b'. split; [reflexivity|].
    now destruct (ParseHexOctet h1 h2). }
  induction n as [|n IH]; intros a b Hn H.
  { destruct a; [now apply Base|simpl in Hn; lia]. }
  destruct a as [|C a']; [now apply Base|].
  cbn [app escapes_ok List.length] in *.
  destruct (C =? 37) eqn:EC.
  2:{ apply (IH a' b); [lia|exact H]. }
  destruct a' as [|h1 [|h2 a'']]; cbn [app List.length] in *.
  - destruct b as [|h2 t1]; [discriminate|].
    now rewrite ParseHexOctet_percent_l in H.
  - now rewrite ParseHexOctet_percent_r in H.
  - destruct (ParseHexOctet h1 h2); [|discriminate].
    apply (IH a'' b); [lia|exact H].
Qed.

(** A string with a malformed escape is rejected by
    [decodeURIComponent]. *)
Lemma malformed_escape_rejected (s : jsstring) :
  malformed_escape s -> decodeURIComponent s = None.
Proof.
  intros (a & b & -> & Hb). unfold decodeURIComponent.
  destruct (Decode [] (a ++ 37 :: b)) as [r|] eqn:D; [|reflexivity].
  exfalso.
  apply (Decode_escapes_bounded [] _ _ r (le_n _)) in D.
  apply (escapes_ok_at_bounded _ a b (le_n _)) in D
    as (h1 & h2 & b' & -> & Hh).
  contradiction.
Qed.

End URI.

(** ** Header lists *)

Section HeaderLists.

Lemma string_eqb_eq (a b : jsstring) : string_eqb a b = true <-> a = b.
Proof.
  revert b; induction a as [|x a IH]; intros [|y b]; simpl;
    try (split; [discriminate|congruence]); [tauto|].
  rewrite andb_true_iff, Z.eqb_eq, IH. split.
  - now intros [-> ->].
  - now intros [= -> ->].
Qed.

Lemma same_name_eq (a b : jsstring) :
  same_name a b = true <-> map byte_lowercase a = map byte_lowercase b.
Proof. apply string_eqb_eq. Qed.

Lemma same_name_refl (a : jsstring) : same_name a a = true.
Proof. now apply same_name_eq. Qed.

(** A header has one name: if it is called [n] it is called [m] only when
    [n] and [m] are the same name. *)
Lemma named_other (n m : jsstring) (h : jsstring * jsstring) :
  same_name n m = false -> named n h = true -> named m h = false.
Proof.
  unfold named. intros D Hn.
  destruct (same_name (fst h) m) eqn:Hm; [|reflexivity].
  apply same_name_eq in Hn, Hm.
  assert (same_name n m = true) by (apply same_name_eq; congruence).
  congruence.
Qed.

Lemma has_filter (hs : Headers) (n : jsstring) :
  has hs n = match filter (named n) hs with [] => false | _ :: _ => true end.
Proof.
  unfold has. induction hs as [|h hs IH]; simpl; [reflexivity|].
  destruct (named n h); simpl; auto.
Qed.

Lemma filter_delete_same (hs : Headers) (n : jsstring) :
  filter (named n) (delete hs n) = [].
Proof.
  unfold delete. induction hs as [|h hs IH]; simpl; [reflexivity|].
  destruct (named n h) eqn:E; simpl; [exact IH|]. now rewrite E.
Qed.

Lemma filter_delete_other (hs : Headers) (n m : jsstring) :
  same_name n m = false ->
  filter (named n) (delete hs m) = filter (named n) hs.
Proof.
  intros D. unfold delete. induction hs as [|h hs IH]; simpl; [reflexivity|].
  destruct (named m h) eqn:Em; simpl.
  - destruct (named n h) eqn:En; [|exact IH].
    rewrite (named_other n m h D En) in Em. discriminate.
  - now rewrite IH.
Qed.

Lemma named_pair (n k v : jsstring) : named n (k, v) = same_name k n.
Proof. reflexivity. Qed.

Lemma filter_set_same (hs : Headers) (n v : jsstring) :
  exists k, filter (named n) (set hs n v) = [(k, v)].
Proof.
  induction hs as [|h hs [k IH]]; cbn [set filter].
  - exists n. now rewrite named_pair, same_name_refl.
  - destruct (named n h) eqn:E; cbn [filter].
    + exists (fst h). rewrite named_pair. unfold named in E. rewrite E.
      now rewrite filter_delete_same.
    + rewrite E. now exists k.
Qed.

Lemma filter_set_other (hs : Headers) (n m v : jsstring) :
  same_name n m = false ->
  filter (named n) (set hs m v) = filter (named n) hs.
Proof.
  intros D. induction hs as [|h hs IH]; cbn [set filter].
  - rewrite named_pair.
    destruct (same_name m n) eqn:E; [|reflexivity].
    apply same_name_eq in E.
    assert (same_name n m = true) by (apply same_name_eq; congruence).
    congruence.
  - destruct (named m h) eqn:Em; cbn [filter].
    + destruct (named n h) eqn:En.
      * rewrite (named_other n m h D En) in Em. discriminate.
      * rewrite named_pair. unfold named in En. rewrite En.
        now apply filter_delete_other.
    + now rewrite IH.
Qed.

Lemma has_delete_same (hs : Headers) (n : jsstring) : has (delete hs n) n = false.
Proof. now rewrite has_filter, filter_delete_same. Qed.

Lemma has_delete_other (hs : Headers) (n m : jsstring) :
  same_name n m = false -> has (delete hs m) n = has hs n.
Proof. intros D. now rewrite !has_filter, filter_delete_other. Qed.

Lemma has_set_other (hs : Headers) (n m v : jsstring) :
  same_name n m = false -> has (set hs m v) n = has hs n.
Proof. intros D. now rewrite !has_filter, filter_set_other. Qed.

Lemma get_delete_other (hs : Headers) (n m : jsstring) :
  same_name n m = false -> get (delete hs m) n = get hs n.
Proof. intros D. unfold get. now rewrite filter_delete_other. Qed.

Lemma get_set_same (hs : Headers) (n v : jsstring) :
  get (set hs n v) n = Some v.
Proof. unfold get. now destruct (filter_set_same hs n v) as [k ->]. Qed.

Lemma get_set_other (hs : Headers) (n m v : jsstring) :
  same_name n m = false -> get (set hs m v) n = get hs n.
Proof. intros D. unfold get. now rewrite filter_set_other. Qed.

(** Deleting and setting keep the other headers, in their order. *)
Lemma delete_keeps (keep : jsstring * jsstring -> bool) (hs : Headers)
      (n : jsstring) :
  (forall h, keep h = true -> named n h = false) ->
  filter keep (delete hs n) = filter keep hs.
Proof.
  intros K. unfold delete. induction hs as [|h hs IH]; simpl; [reflexivity|].
  destruct (named n h) eqn:E; simpl.
  - destruct (keep h) eqn:Kh; [|exact IH].
    rewrite (K h Kh) in E. discriminate.
  - now rewrite IH.
Qed.

Lemma set_keeps (keep : jsstring * jsstring -> bool) (hs : Headers)
      (n v : jsstring) :
  (forall h, keep h = true -> named n h = false) ->
  filter keep (set hs n v) = filter keep hs.
Proof.
  intros K. induction hs as [|h hs IH]; cbn [set filter].
  - destruct (keep (n, v)) eqn:Kn; [|reflexivity].
    apply K in Kn. now rewrite named_pair, same_name_refl in Kn.
  - destruct (named n h) eqn:E; cbn [filter].
    + destruct (keep (fst h, v)) eqn:K1.
      { apply K in K1. rewrite named_pair in K1. unfold named in E. congruence. }
      destruct (keep h) eqn:K2.
      { apply K in K2. congruence. }
      now apply delete_keeps.
    + now rewrite IH.
Qed.

End HeaderLists.

(** ** The constructors *)

Section Constructors.

Variable rt : Runtime.

(** A text with status 400 or 500 is always made. *)
Lemma answer_400 (text : jsstring) :
  new_Response rt (Some (FromString text)) (status_only 400)
  = inl (text_response 400 text).
Proof. reflexivity. Qed.

Lemma answer_500 (text : jsstring) :
  new_Response rt (Some (FromString text)) (status_only 500)
  = inl (text_response 500 text).
Proof. reflexivity. Qed.

Lemma plain_text_response (code : Z) (text : jsstring) :
  plain_text (text_response code text) code text.
Proof. repeat split. Qed.

Lemma caught_answer (pr : ProxyRequest) (error : Error) :
  caught rt pr error
  = (inl (text_response 500
            (js "Failed to fetch target URL: " ++ message error)),
     [Fetched pr; ConsoleError (js "PROXX Fetch Error:") error]).
Proof. reflexivity. Qed.

Lemma new_Request_made (input : jsstring) (init : RequestInit)
      (pr : ProxyRequest) :
  new_Request rt input init = inl pr ->
  Request_error rt input init = None
  /\ pr = {| proxy_url := input;
             proxy_method := init_method init;
             proxy_headers := init_headers init;
             proxy_body := init_body init;
             proxy_redirect := init_redirect init |}.
Proof.
  unfold new_Request. destruct (Request_error rt input init); [discriminate|].
  now intros [= <-].
Qed.

Lemma new_Request_thrown (input : jsstring) (init : RequestInit)
      (thrown : Error) :
  new_Request rt input init = inr thrown <->
  Request_error rt input init = Some thrown.
Proof.
  unfold new_Request. destruct (Request_error rt input init).
  - split; now intros [= ->].
  - split; discriminate.
Qed.

(** [new Response(response.body, response)] makes the response again when
    the upstream is relayable, and throws otherwise. *)
Lemma relay_made (upstream : Response) :
  relayable upstream = true ->
  new_Response rt (body_of upstream) (as_init upstream) = inl upstream.
Proof.
  unfold relayable, new_Response, body_of, as_init.
  destruct upstream as [s st hs b]; cbn [status statusText response_headers
    response_body init_status init_statusText init_response_headers].
  intros R. apply andb_true_iff in R as [R N].
  apply andb_true_iff in R as [R P]. apply andb_true_iff in R as [L U].
  apply Z.leb_le in L, U.
  replace (s <? 200) with false by (symmetry; apply Z.ltb_ge; lia).
  replace (599 <? s) with false by (symmetry; apply Z.ltb_ge; lia).
  rewrite P. cbn [orb negb].
  apply negb_true_iff in N.
  destruct b as [b|]; cbn [option_map] in *; rewrite ?N; reflexivity.
Qed.

Lemma relay_thrown (upstream : Response) :
  relayable upstream = false ->
  exists error,
    new_Response rt (body_of upstream) (as_init upstream) = inr error.
Proof.
  unfold relayable, new_Response, body_of, as_init.
  destruct upstream as [s st hs b]; cbn [status statusText response_headers
    response_body init_status init_statusText init_response_headers].
  intros R.
  destruct ((s <? 200) || (599 <? s)) eqn:O; [eauto|].
  destruct (forallb reason_phrase_char st) eqn:P; cbn [negb]; [|eauto].
  apply orb_false_iff in O as [L U]. apply Z.ltb_ge in L, U.
  replace (200 <=? s) with true in R by (symmetry; apply Z.leb_le; lia).
  replace (s <=? 599) with true in R by (symmetry; apply Z.leb_le; lia).
  cbn [andb] in R. apply negb_false_iff in R.
  destruct b as [b|]; cbn [option_map] in *; [|discriminate R].
  rewrite R. eauto.
Qed.

Lemma relay_made_inv (upstream r : Response) :
  new_Response rt (body_of upstream) (as_init upstream) = inl r ->
  relayable upstream = true /\ r = upstream.
Proof.
  intros H. destruct (relayable upstream) eqn:R.
  - rewrite (relay_made upstream R) in H. now injection H as <-.
  - destruct (relay_thrown upstream R) as [e E]. congruence.
Qed.

End Constructors.

(** ** The branches of the two handlers *)

Section Branches.

Variable rt : Runtime.
Variable request : Request.

Lemma startsWith_not_falsy (t p : jsstring) (x : Z) :
  startsWith t (x :: p) = true -> falsy t = false.
Proof. destruct t; [discriminate|reflexivity]. Qed.

Lemma http_scheme_passes (t : jsstring) :
  http_scheme t ->
  falsy t || (negb (startsWith t (js "http://"))
              && negb (startsWith t (js "https://"))) = false.
Proof.
  intros [H|H].
  - rewrite (startsWith_not_falsy _ _ _ H), H. reflexivity.
  - rewrite (startsWith_not_falsy _ _ _ H), H. now rewrite andb_false_r.
Qed.

Lemma no_scheme_fails (t : jsstring) :
  startsWith t (js "http://") = false ->
  startsWith t (js "https://") = false ->
  falsy t || (negb (startsWith t (js "http://"))
              && negb (startsWith t (js "https://"))) = true.
Proof. intros -> ->. now rewrite orb_true_r. Qed.

Lemma scheme_test (t : jsstring) :
  falsy t || (negb (startsWith t (js "http://"))
              && negb (startsWith t (js "https://"))) = false ->
  http_scheme t.
Proof.
  intros H. apply orb_false_iff in H as [_ H].
  apply andb_false_iff in H as [H|H]; apply negb_false_iff in H;
    [now left|now right].
Qed.

Lemma Worker_segment (seg : jsstring) :
  Worker.encodedTargetUrl request = Some seg ->
  (indexOf (pathname (url request)) Worker.proxyPrefix =? -1) = false
  /\ substring (pathname (url request))
       (indexOf (pathname (url request)) Worker.proxyPrefix
        + length Worker.proxyPrefix) = seg.
Proof.
  unfold Worker.encodedTargetUrl.
  destruct (indexOf _ _ =? -1); [discriminate|]. now intros [= <-].
Qed.

Lemma Binding_segment (seg : jsstring) :
  BindingWorker.encodedTargetUrl request = Some seg ->
  (length (pathname (url request)) <=? 1) = false
  /\ substring (pathname (url request)) 1 = seg.
Proof.
  unfold BindingWorker.encodedTargetUrl.
  destruct (length _ <=? 1); [discriminate|]. now intros [= <-].
Qed.

(** The handlers as functions of the extracted segment. *)
Lemma Worker_steps :
  Worker.handleRequest rt request
  = match Worker.encodedTargetUrl request with
    | None => (Worker.createRootResponse rt (hostname (url request)), [])
    | Some seg =>
        match decodeURIComponent seg with
        | None =>
            (new_Response rt (Some (FromString (js "Invalid URL encoding.")))
               (status_only 400), [])
        | Some t =>
            if falsy t || (negb (startsWith t (js "http://"))
                           && negb (startsWith t (js "https://")))
            then (new_Response rt
                    (Some (FromString (js "Invalid target URL format.")))
                    (status_only 400), [])
            else
              match new_Request rt t (forward_init request) with
              | inr thrown => (inr thrown, [])
              | inl pr =>
                  match fetch rt pr with
                  | inr error => caught rt pr error
                  | inl response =>
                      match new_Response rt (body_of response)
                                         (as_init response) with
                      | inr error => caught rt pr error
                      | inl r => (inl (relayed false r), [Fetched pr])
                      end
                  end
              end
        end
    end.
Proof.
  unfold Worker.handleRequest, Worker.encodedTargetUrl.
  now destruct (indexOf _ _ =? -1).
Qed.

Lemma Binding_steps :
  BindingWorker.handleRequest rt request
  = match BindingWorker.encodedTargetUrl request with
    | None => (BindingWorker.createRootResponse rt, [])
    | Some seg =>
        match decodeURIComponent seg with
        | None =>
            (new_Response rt (Some (FromString (js "Invalid URL encoding.")))
               (status_only 400), [])
        | Some t =>
            if falsy t || (negb (startsWith t (js "http://"))
                           && negb (startsWith t (js "https://")))
            then (new_Response rt
                    (Some (FromString
                             (js "Invalid target URL format. Must start with http:// or https://")))
                    (status_only 400), [])
            else
              match new_Request rt t (forward_init request) with
              | inr thrown => (inr thrown, [])
              | inl pr =>
                  match fetch rt pr with
                  | inr error => caught rt pr error
                  | inl response =>
                      match new_Response rt (body_of response)
                                         (as_init response) with
                      | inr error => caught rt pr error
                      | inl r => (inl (relayed true r), [Fetched pr])
                      end
                  end
              end
        end
    end.
Proof.
  unfold BindingWorker.handleRequest, BindingWorker.encodedTargetUrl.
  now destruct (length _ <=? 1).
Qed.

Lemma Worker_root :
  Worker.encodedTargetUrl request = None ->
  Worker.handleRequest rt request
  = (Worker.createRootResponse rt (hostname (url request)), []).
Proof. intros E. now rewrite Worker_steps, E. Qed.

Lemma Binding_root :
  BindingWorker.encodedTargetUrl request = None ->
  BindingWorker.handleRequest rt request
  = (BindingWorker.createRootResponse rt, []).
Proof. intros E. now rewrite Binding_steps, E. Qed.

Lemma Worker_bad_encoding (seg : jsstring) :
  Worker.encodedTargetUrl request = Some seg ->
  decodeURIComponent seg = None ->
  Worker.handleRequest rt request
  = (new_Response rt (Some (FromString (js "Invalid URL encoding.")))
       (status_only 400), []).
Proof. intros E D. now rewrite Worker_steps, E, D. Qed.

Lemma Binding_bad_encoding (seg : jsstring) :
  BindingWorker.encodedTargetUrl request = Some seg ->
  decodeURIComponent seg = None ->
  BindingWorker.handleRequest rt request
  = (new_Response rt (Some (FromString (js "Invalid URL encoding.")))
       (status_only 400), []).
Proof. intros E D. now rewrite Binding_steps, E, D. Qed.

Lemma Worker_bad_format (seg t : jsstring) :
  Worker.encodedTargetUrl request = Some seg ->
  decodeURIComponent seg = Some t ->
  startsWith t (js "http://") = false ->
  startsWith t (js "https://") = false ->
  Worker.handleRequest rt request
  = (new_Response rt (Some (FromString (js "Invalid target URL format.")))
       (status_only 400), []).
Proof.
  intros E D H1 H2. now rewrite Worker_steps, E, D, (no_scheme_fails t H1 H2).
Qed.

Lemma Binding_bad_format (seg t : jsstring) :
  BindingWorker.encodedTargetUrl request = Some seg ->
  decodeURIComponent seg = Some t ->
  startsWith t (js "http://") = false ->
  startsWith t (js "https://") = false ->
  BindingWorker.handleRequest rt request
  = (new_Response rt
       (Some (FromString
                (js "Invalid target URL format. Must start with http:// or https://")))
       (status_only 400), []).
Proof.
  intros E D H1 H2. now rewrite Binding_steps, E, D, (no_scheme_fails t H1 H2).
Qed.

(** A target that passes the scheme test goes to [new Request]; what it
    throws, the handler throws. *)
Lemma Worker_throws (seg t : jsstring) (thrown : Error) :
  Worker.encodedTargetUrl request = Some seg ->
  decodeURIComponent seg = Some t ->
  http_scheme t ->
  Request_error rt t (forward_init request) = Some thrown ->
  Worker.handleRequest rt request = (inr thrown, []).
Proof.
  intros E D H T%new_Request_thrown.
  now rewrite Worker_steps, E, D, (http_scheme_passes t H), T.
Qed.

Lemma Binding_throws (seg t : jsstring) (thrown : Error) :
  BindingWorker.encodedTargetUrl request = Some seg ->
  decodeURIComponent seg = Some t ->
  http_scheme t ->
  Request_error rt t (forward_init request) = Some thrown ->
  BindingWorker.handleRequest rt request = (inr thrown, []).
Proof.
  intros E D H T%new_Request_thrown.
  now rewrite Binding_steps, E, D, (http_scheme_passes t H), T.
Qed.

Lemma new_Request_forwarded (t : jsstring) :
  Request_error rt t (forward_init request) = None ->
  new_Request rt t (forward_init request) = inl (forwarded request t).
Proof. intros A. unfold new_Request. now rewrite A. Qed.

(** When [new Request] makes the request, it is fetched. *)
Lemma Worker_forwards (seg t : jsstring) :
  Worker.encodedTargetUrl request = Some seg ->
  decodeURIComponent seg = Some t ->
  http_scheme t ->
  Request_error rt t (forward_init request) = None ->
  Worker.handleRequest rt request
  = match fetch rt (forwarded request t) with
    | inr error => caught rt (forwarded request t) error
    | inl response =>
        match new_Response rt (body_of response) (as_init response) with
        | inr error => caught rt (forwarded request t) error
        | inl r => (inl (relayed false r), [Fetched (forwarded request t)])
        end
    end.
Proof.
  intros E D H A.
  now rewrite Worker_steps, E, D, (http_scheme_passes t H),
    (new_Request_forwarded t A).
Qed.

Lemma Binding_forwards (seg t : jsstring) :
  BindingWorker.encodedTargetUrl request = Some seg ->
  decodeURIComponent seg = Some t ->
  http_scheme t ->
  Request_error rt t (forward_init request) = None ->
  BindingWorker.handleRequest rt request
  = match fetch rt (forwarded request t) with
    | inr error => caught rt (forwarded request t) error
    | inl response =>
        match new_Response rt (body_of response) (as_init response) with
        | inr error => caught rt (forwarded request t) error
        | inl r => (inl (relayed true r), [Fetched (forwarded request t)])
        end
    end.
Proof.
  intros E D H A.
  now rewrite Binding_steps, E, D, (http_scheme_passes t H),
    (new_Request_forwarded t A).
Qed.

(** A call of [fetch] in the trace comes from the forwarding branch. *)
Lemma Worker_fetched (pr : ProxyRequest) :
  In (Fetched pr) (snd (Worker.handleRequest rt request)) ->
  exists seg t,
    Worker.encodedTargetUrl request = Some seg
    /\ decodeURIComponent seg = Some t
    /\ http_scheme t
    /\ Request_error rt t (forward_init request) = None
    /\ pr = forwarded request t.
Proof.
  rewrite Worker_steps.
  destruct (Worker.encodedTargetUrl request) as [seg|] eqn:E; [|intros []].
  destruct (decodeURIComponent seg) as [t|] eqn:D; [|intros []].
  destruct (falsy t || _) eqn:V; [intros []|]. apply scheme_test in V.
  destruct (Request_error rt t (forward_init request)) as [thrown|] eqn:A.
  { apply new_Request_thrown in A. rewrite A. intros []. }
  rewrite (new_Request_forwarded t A). intros I.
  exists seg, t. repeat split; auto.
  destruct (fetch rt _); [destruct (new_Response rt _ _)|];
    simpl in I; intuition congruence.
Qed.

Lemma Binding_fetched (pr : ProxyRequest) :
  In (Fetched pr) (snd (BindingWorker.handleRequest rt request)) ->
  exists seg t,
    BindingWorker.encodedTargetUrl request = Some seg
    /\ decodeURIComponent seg = Some t
    /\ http_scheme t
    /\ Request_error rt t (forward_init request) = None
    /\ pr = forwarded request t.
Proof.
  rewrite Binding_steps.
  destruct (BindingWorker.encodedTargetUrl request) as [seg|] eqn:E;
    [|intros []].
  destruct (decodeURIComponent seg) as [t|] eqn:D; [|intros []].
  destruct (falsy t || _) eqn:V; [intros []|]. apply scheme_test in V.
  destruct (Request_error rt t (forward_init request)) as [thrown|] eqn:A.
  { apply new_Request_thrown in A. rewrite A. intros []. }
  rewrite (new_Request_forwarded t A). intros I.
  exists seg, t. repeat split; auto.
  destruct (fetch rt _); [destruct (new_Response rt _ _)|];
    simpl in I; intuition congruence.
Qed.

(** After a fetch that resolved, by what [new Response] does. *)
Lemma Worker_resolved (pr : ProxyRequest) (upstream : Response) :
  fetch rt pr = inl upstream ->
  In (Fetched pr) (snd (Worker.handleRequest rt request)) ->
  Worker.handleRequest rt request
  = match new_Response rt (body_of upstream) (as_init upstream) with
    | inr error => caught rt pr error
    | inl r => (inl (relayed false r), [Fetched pr])
    end.
Proof.
  intros F I.
  destruct (Worker_fetched pr I) as (seg & t & E & D & H & A & ->).
  now rewrite (Worker_forwards seg t E D H A), F.
Qed.

Lemma Binding_resolved (pr : ProxyRequest) (upstream : Response) :
  fetch rt pr = inl upstream ->
  In (Fetched pr) (snd (BindingWorker.handleRequest rt request)) ->
  BindingWorker.handleRequest rt request
  = match new_Response rt (body_of upstream) (as_init upstream) with
    | inr error => caught rt pr error
    | inl r => (inl (relayed true r), [Fetched pr])
    end.
Proof.
  intros F I.
  destruct (Binding_fetched pr I) as (seg & t & E & D & H & A & ->).
  now rewrite (Binding_forwards seg t E D H A), F.
Qed.

Lemma Worker_rejected (pr : ProxyRequest) (error : Error) :
  fetch rt pr = inr error ->
  In (Fetched pr) (snd (Worker.handleRequest rt request)) ->
  Worker.handleRequest rt request = caught rt pr error.
Proof.
  intros F I.
  destruct (Worker_fetched pr I) as (seg & t & E & D & H & A & ->).
  now rewrite (Worker_forwards seg t E D H A), F.
Qed.

Lemma Binding_rejected (pr : ProxyRequest) (error : Error) :
  fetch rt pr = inr error ->
  In (Fetched pr) (snd (BindingWorker.handleRequest rt request)) ->
  BindingWorker.handleRequest rt request = caught rt pr error.
Proof.
  intros F I.
  destruct (Binding_fetched pr I) as (seg & t & E & D & H & A & ->).
  now rewrite (Binding_forwards seg t E D H A), F.
Qed.

End Branches.

(** ** The answers without a fetch *)

Section Answers.

Variable rt : Runtime.

Lemma Worker_root_made (hostname : jsstring) :
  Worker.createRootResponse rt hostname
  = inl (html_response (Worker.htmlContent hostname)).
Proof. reflexivity. Qed.

Lemma Binding_root_made :
  BindingWorker.createRootResponse rt
  = inl (html_response BindingWorker.htmlContent).
Proof. reflexivity. Qed.

Lemma html_page_response (html : jsstring) :
  html_page (html_response html) html.
Proof. repeat split. Qed.

Lemma Worker_no_marker (request : Request) :
  ~ occurs_in Worker.proxyPrefix (pathname (url request)) ->
  Worker.encodedTargetUrl request = None.
Proof.
  intros H%indexOf_absent. unfold Worker.encodedTargetUrl. now rewrite H.
Qed.

Lemma Worker_marker (request : Request) :
  occurs_in Worker.proxyPrefix (pathname (url request)) ->
  exists seg, Worker.encodedTargetUrl request = Some seg.
Proof.
  intros (a & b & H). unfold Worker.encodedTargetUrl.
  pose proof (indexOf_occurs a Worker.proxyPrefix b) as N. rewrite <- H in N.
  apply Z.eqb_neq in N. rewrite N. eauto.
Qed.

Lemma differs_only_in_case_http (t : jsstring) :
  differs_only_in_case t (js "http://") ->
  startsWith t (js "http://") = false /\ startsWith t (js "https://") = false.
Proof.
  intros (q & r & -> & N & L).
  do 8 (try destruct q as [|? q]; try discriminate L).
  injection L as L0 L1 L2 L3 L4 L5 L6.
  split.
  - destruct (startsWith _ (js "http://")) eqn:S; [|reflexivity].
    apply startsWith_true in S as [r' S]. exfalso. apply N.
    injection S as -> -> -> -> -> -> ->. reflexivity.
  - destruct (startsWith _ (js "https://")) eqn:S; [|reflexivity].
    apply startsWith_true in S as [r' S]. exfalso.
    injection S as -> -> -> -> -> S. discriminate L4.
Qed.

Lemma differs_only_in_case_https (t : jsstring) :
  differs_only_in_case t (js "https://") ->
  startsWith t (js "http://") = false /\ startsWith t (js "https://") = false.
Proof.
  intros (q & r & -> & N & L).
  do 9 (try destruct q as [|? q]; try discriminate L).
  injection L as L0 L1 L2 L3 L4 L5 L6 L7.
  split.
  - destruct (startsWith _ (js "http://")) eqn:S; [|reflexivity].
    apply startsWith_true in S as [r' S]. exfalso.
    injection S as -> -> -> -> -> S. discriminate L4.
  - destruct (startsWith _ (js "https://")) eqn:S; [|reflexivity].
    apply startsWith_true in S as [r' S]. exfalso. apply N.
    injection S as -> -> -> -> -> -> -> ->. reflexivity.
Qed.

(** The two 400 answers and the root pages, as results of a handler. *)
Lemma no_fetch_text (text : jsstring) :
  let run := (new_Response rt (Some (FromString text)) (status_only 400),
              @nil Event) in
  snd run = [] /\ exists r, fst run = inl r /\ plain_text r 400 text.
Proof.
  cbn zeta. rewrite answer_400. split; [reflexivity|].
  eexists. split; [reflexivity|apply plain_text_response].
Qed.

End Answers.

(** ** The relayed answer *)

Section Relay.

Lemma untouched_not_named (n : jsstring) (h : jsstring * jsstring) :
  In n [js "content-security-policy"; js "x-frame-options";
        js "Access-Control-Allow-Origin"] ->
  untouched h = true -> named n h = false.
Proof.
  unfold untouched. intros I U.
  apply andb_true_iff in U as [U U3]. apply andb_true_iff in U as [U1 U2].
  apply negb_true_iff in U1, U2, U3.
  destruct I as [<-|[<-|[<-|[]]]]; assumption.
Qed.

Lemma relayed_headers (cors : bool) (r : Response) :
  response_headers (relayed cors r)
  = let hs := delete (delete (response_headers r)
                        (js "content-security-policy"))
                (js "x-frame-options") in
    if cors then set hs (js "Access-Control-Allow-Origin") (js "*") else hs.
Proof. now destruct cors. Qed.

Lemma relayed_status (cors : bool) (r : Response) :
  status (relayed cors r) = status r
  /\ statusText (relayed cors r) = statusText r
  /\ response_body (relayed cors r) = response_body r.
Proof. now destruct cors. Qed.

Lemma relayed_has_neither (cors : bool) (r : Response) :
  has (response_headers (relayed cors r)) (js "content-security-policy") = false
  /\ has (response_headers (relayed cors r)) (js "x-frame-options") = false.
Proof.
  rewrite relayed_headers. destruct cors; cbn zeta; split.
  - rewrite has_set_other, has_delete_other by reflexivity.
    apply has_delete_same.
  - rewrite has_set_other by reflexivity. apply has_delete_same.
  - rewrite has_delete_other by reflexivity. apply has_delete_same.
  - apply has_delete_same.
Qed.

Lemma relayable_relayed (cors : bool) (r : Response) :
  relayable (relayed cors r) = relayable r.
Proof. now destruct cors. Qed.

End Relay.

(** ** The properties of the specification *)

Section Properties.

(** C1, as amended.  After an upstream fetch that resolved, the answer of
    either handler has no [content-security-policy] and no
    [x-frame-options] header.  When the upstream response is one that
    [new Response] accepts, the handler behind the service binding also
    sets [Access-Control-Allow-Origin] to [*], and the handler of the
    [/proxx/] marker leaves that header as the upstream sent it; for
    another upstream response the answer is the 500 text, without that
    header. *)
Theorem C1_sanitized_headers (rt : Runtime) (request : Request)
        (pr : ProxyRequest) (upstream : Response) :
  fetch rt pr = inl upstream ->
  (In (Fetched pr) (snd (Worker.handleRequest rt request)) ->
   exists out,
     fst (Worker.handleRequest rt request) = inl out
     /\ has (response_headers out) (js "content-security-policy") = false
     /\ has (response_headers out) (js "x-frame-options") = false
     /\ get (response_headers out) (js "Access-Control-Allow-Origin")
        = if relayable upstream
          then get (response_headers upstream)
                   (js "Access-Control-Allow-Origin")
          else None)
  /\ (In (Fetched pr) (snd (BindingWorker.handleRequest rt request)) ->
      exists out,
        fst (BindingWorker.handleRequest rt request) = inl out
        /\ has (response_headers out) (js "content-security-policy") = false
        /\ has (response_headers out) (js "x-frame-options") = false
        /\ get (response_headers out) (js "Access-Control-Allow-Origin")
           = if relayable upstream then Some (js "*") else None).
Proof.
  intros F. split; intros I.
  - rewrite (Worker_resolved rt request pr upstream F I).
    destruct (relayable upstream) eqn:R.
    + rewrite (relay_made rt upstream R). eexists. split; [reflexivity|].
      destruct (relayed_has_neither false upstream) as [C X].
      split; [exact C|]. split; [exact X|].
      rewrite relayed_headers. cbn zeta.
      now rewrite !get_delete_other by reflexivity.
    + destruct (relay_thrown rt upstream R) as [e T].
      rewrite T, caught_answer. eexists. split; [reflexivity|].
      repeat split.
  - rewrite (Binding_resolved rt request pr upstream F I).
    destruct (relayable upstream) eqn:R.
    + rewrite (relay_made rt upstream R). eexists. split; [reflexivity|].
      destruct (relayed_has_neither true upstream) as [C X].
      split; [exact C|]. split; [exact X|].
      rewrite relayed_headers. cbn zeta. apply get_set_same.
    + destruct (relay_thrown rt upstream R) as [e T].
      rewrite T, caught_answer. eexists. split; [reflexivity|].
      repeat split.
Qed.

Lemma C1_sanitized_headers_witness :
  (let request := Examples.request_at "/proxx/https%3A%2F%2Fexample.com" in
   exists out,
     fst (Worker.handleRequest Examples.fetch_ok request) = inl out
     /\ has (response_headers out) (js "content-security-policy") = false
     /\ has (response_headers out) (js "x-frame-options") = false
     /\ get (response_headers out) (js "Access-Control-Allow-Origin")
        = get (response_headers Examples.upstream)
              (js "Access-Control-Allow-Origin"))
  /\ (let request := Examples.request_at "/https%3A%2F%2Fexample.com" in
      exists out,
        fst (BindingWorker.handleRequest Examples.fetch_ok request) = inl out
        /\ has (response_headers out) (js "content-security-policy") = false
        /\ has (response_headers out) (js "x-frame-options") = false
        /\ get (response_headers out) (js "Access-Control-Allow-Origin")
           = Some (js "*")).
Proof.
  split; intros request.
  - refine (proj1 (C1_sanitized_headers Examples.fetch_ok request
                     (forwarded request (js "https://example.com"))
                     Examples.upstream eq_refl) _).
    vm_compute. left. reflexivity.
  - refine (proj2 (C1_sanitized_headers Examples.fetch_ok request
                     (forwarded request (js "https://example.com"))
                     Examples.upstream eq_refl) _).
    vm_compute. left. reflexivity.
Defined.

(** C1, as stated, fails for the handler of the [/proxx/] marker: an
    upstream answer without [Access-Control-Allow-Origin] is relayed
    without it.  It also fails behind the binding for an upstream answer
    of status 999, which [new Response] refuses: the answer is the 500
    text, and has no such header. *)
Lemma C1_counterexample :
  (let request := Examples.request_at "/proxx/https%3A%2F%2Fexample.com" in
   let run := Worker.handleRequest Examples.fetch_ok request in
   fetch Examples.fetch_ok (forwarded request (js "https://example.com"))
   = inl Examples.upstream
   /\ snd run = [Fetched (forwarded request (js "https://example.com"))]
   /\ exists out,
        fst run = inl out
        /\ get (response_headers out) (js "Access-Control-Allow-Origin") = None
        /\ get (response_headers out) (js "Access-Control-Allow-Origin")
           <> Some (js "*"))
  /\ (let request := Examples.request_at "/https%3A%2F%2Fexample.com" in
      let run := BindingWorker.handleRequest Examples.fetch_999 request in
      fetch Examples.fetch_999 (forwarded request (js "https://example.com"))
      = inl Examples.upstream_999
      /\ filter is_fetch (snd run)
         = [Fetched (forwarded request (js "https://example.com"))]
      /\ exists out,
           fst run = inl out
           /\ status out = 500
           /\ get (response_headers out) (js "Access-Control-Allow-Origin")
              = None
           /\ get (response_headers out) (js "Access-Control-Allow-Origin")
              <> Some (js "*")).
Proof.
  split; cbn zeta.
  - split; [reflexivity|]. split; [reflexivity|].
    eexists. split; [reflexivity|]. split; [reflexivity|].
    vm_compute. discriminate.
  - split; [reflexivity|]. split; [reflexivity|].
    eexists. split; [reflexivity|]. split; [reflexivity|].
    split; [reflexivity|]. vm_compute. discriminate.
Qed.

(** C2.  The target survives the path.  Let [encodeURIComponent] encode the
    string [u], not empty, to [e].  From a path that has [e] after the
    marker [/proxx/] (the first marker of the path) one handler cuts [e]
    out, and so does the other from the path [/e]; [e] decodes to exactly
    [u]; and when [u] begins with [http://] or [https://] and is a URL
    that [new Request] accepts, the fetch goes to [u]. *)
Theorem C2_round_trip (rt : Runtime) (request : Request)
        (u e a : jsstring) :
  is_string u -> u <> [] -> encodeURIComponent u = Some e ->
  (indexOf (a ++ Worker.proxyPrefix) Worker.proxyPrefix = length a ->
   pathname (url request) = a ++ Worker.proxyPrefix ++ e ->
   Worker.encodedTargetUrl request = Some e
   /\ decodeURIComponent e = Some u
   /\ (http_scheme u ->
       Request_error rt u (forward_init request) = None ->
       exists more,
         snd (Worker.handleRequest rt request)
         = Fetched (forwarded request u) :: more))
  /\ (pathname (url request) = js "/" ++ e ->
      BindingWorker.encodedTargetUrl request = Some e
      /\ decodeURIComponent e = Some u
      /\ (http_scheme u ->
          Request_error rt u (forward_init request) = None ->
          exists more,
            snd (BindingWorker.handleRequest rt request)
            = Fetched (forwarded request u) :: more)).
Proof.
  intros Su Nu He.
  pose proof (decodeURIComponent_encodeURIComponent u e Su He) as D.
  split.
  - intros Ia P.
    assert (Worker.encodedTargetUrl request = Some e) as E.
    { unfold Worker.encodedTargetUrl. rewrite P, app_assoc.
      assert (indexOf (a ++ Worker.proxyPrefix) Worker.proxyPrefix <> -1) as N.
      { rewrite Ia. unfold length. lia. }
      rewrite (indexOf_app _ e _ N), Ia, <- length_app.
      replace (length a =? -1) with false
        by (symmetry; apply Z.eqb_neq; unfold length; lia).
      now rewrite substring_app. }
    repeat split; auto. intros Hu A.
    rewrite (Worker_forwards rt request e u E D Hu A).
    destruct (fetch rt _); [destruct (new_Response rt _ _)|];
      cbn [snd caught]; eexists; reflexivity.
  - intros P.
    assert (BindingWorker.encodedTargetUrl request = Some e) as E.
    { unfold BindingWorker.encodedTargetUrl. rewrite P.
      destruct e as [|c e].
      - injection D as <-. contradiction.
      - replace (length (js "/" ++ c :: e) <=? 1) with false; [reflexivity|].
        symmetry. apply Z.leb_gt. unfold length.
        cbn [js app List.length map list_ascii_of_string]. lia. }
    repeat split; auto. intros Hu A.
    rewrite (Binding_forwards rt request e u E D Hu A).
    destruct (fetch rt _); [destruct (new_Response rt _ _)|];
      cbn [snd caught]; eexists; reflexivity.
Qed.

Lemma example_url_not_empty : js "https://example.com/path?q=1" <> [].
Proof. intros E. vm_compute in E. discriminate E. Defined.

Lemma C2_round_trip_witness :
  (let request :=
     Examples.request_at "/proxx/https%3A%2F%2Fexample.com%2Fpath%3Fq%3D1" in
   Worker.encodedTargetUrl request
   = Some (js "https%3A%2F%2Fexample.com%2Fpath%3Fq%3D1")
   /\ decodeURIComponent (js "https%3A%2F%2Fexample.com%2Fpath%3Fq%3D1")
      = Some (js "https://example.com/path?q=1")
   /\ exists more,
        snd (Worker.handleRequest Examples.fetch_ok request)
        = Fetched (forwarded request (js "https://example.com/path?q=1"))
          :: more)
  /\ (let request :=
        Examples.request_at "/https%3A%2F%2Fexample.com%2Fpath%3Fq%3D1" in
      BindingWorker.encodedTargetUrl request
      = Some (js "https%3A%2F%2Fexample.com%2Fpath%3Fq%3D1")
      /\ decodeURIComponent (js "https%3A%2F%2Fexample.com%2Fpath%3Fq%3D1")
         = Some (js "https://example.com/path?q=1")
      /\ exists more,
           snd (BindingWorker.handleRequest Examples.fetch_ok request)
           = Fetched (forwarded request (js "https://example.com/path?q=1"))
             :: more).
Proof.
  pose proof (is_string_js "https://example.com/path?q=1") as S.
  split; intros request.
  - destruct (proj1 (C2_round_trip Examples.fetch_ok request
                       (js "https://example.com/path?q=1")
                       (js "https%3A%2F%2Fexample.com%2Fpath%3Fq%3D1") []
                       S example_url_not_empty eq_refl) eq_refl eq_refl)
      as (E & D & F).
    exact (conj E (conj D (F (or_intror eq_refl) eq_refl))).
  - destruct (proj2 (C2_round_trip Examples.fetch_ok request
                       (js "https://example.com/path?q=1")
                       (js "https%3A%2F%2Fexample.com%2Fpath%3Fq%3D1") []
                       S example_url_not_empty eq_refl) eq_refl)
      as (E & D & F).
    exact (conj E (conj D (F (or_intror eq_refl) eq_refl))).
Defined.

(** C3.  A path without the target segment (no [/proxx/] marker in it for
    one handler, at most one character for the other) is answered with
    the root page: status 200, no status of the 400 or the 500 class, and
    no call of [fetch]. *)
Theorem C3_no_target_root_page (rt : Runtime) (request : Request) :
  (~ occurs_in Worker.proxyPrefix (pathname (url request)) ->
   let run := Worker.handleRequest rt request in
   snd run = []
   /\ exists r,
        fst run = inl r
        /\ html_page r (Worker.htmlContent (hostname (url request)))
        /\ ~ 400 <= status r <= 599)
  /\ (length (pathname (url request)) <= 1 ->
      let run := BindingWorker.handleRequest rt request in
      snd run = []
      /\ exists r,
           fst run = inl r
           /\ html_page r BindingWorker.htmlContent
           /\ ~ 400 <= status r <= 599).
Proof.
  split.
  - intros H%Worker_no_marker run. subst run.
    rewrite (Worker_root rt request H), Worker_root_made. cbn [fst snd].
    split; [reflexivity|]. eexists. split; [reflexivity|].
    split; [apply html_page_response|].
    cbn [html_response status]. lia.
  - intros H run. subst run. rewrite (Binding_root rt request).
    + rewrite Binding_root_made. cbn [fst snd].
      split; [reflexivity|]. eexists. split; [reflexivity|].
      split; [apply html_page_response|].
      cbn [html_response status]. lia.
    + unfold BindingWorker.encodedTargetUrl.
      apply Z.leb_le in H. now rewrite H.
Qed.

Lemma C3_no_target_root_page_witness :
  (let run := Worker.handleRequest Examples.fetch_ok
                (Examples.request_at "/prox/about") in
   snd run = []
   /\ exists r,
        fst run = inl r
        /\ html_page r (Worker.htmlContent (js "kenos.example"))
        /\ ~ 400 <= status r <= 599)
  /\ (let run := BindingWorker.handleRequest Examples.fetch_ok
                   (Examples.request_at "/") in
      snd run = []
      /\ exists r,
           fst run = inl r
           /\ html_page r BindingWorker.htmlContent
           /\ ~ 400 <= status r <= 599).
Proof.
  split.
  - refine (proj1 (C3_no_target_root_page Examples.fetch_ok
                     (Examples.request_at "/prox/about")) _).
    apply indexOf_absent. reflexivity.
  - refine (proj2 (C3_no_target_root_page Examples.fetch_ok
                     (Examples.request_at "/")) _).
    vm_compute. discriminate.
Defined.

(** C4.  A decoded target that begins neither with [http://] nor with
    [https://] (the empty string, a relative path, another scheme) is
    answered with status 400 and the plain text of the invalid target
    format, and [fetch] is not called. *)
Theorem C4_invalid_target (rt : Runtime) (request : Request)
        (seg t : jsstring) :
  decodeURIComponent seg = Some t ->
  startsWith t (js "http://") = false ->
  startsWith t (js "https://") = false ->
  (Worker.encodedTargetUrl request = Some seg ->
   let run := Worker.handleRequest rt request in
   snd run = []
   /\ exists r,
        fst run = inl r
        /\ plain_text r 400 (js "Invalid target URL format."))
  /\ (BindingWorker.encodedTargetUrl request = Some seg ->
      let run := BindingWorker.handleRequest rt request in
      snd run = []
      /\ exists r,
           fst run = inl r
           /\ plain_text r 400
                (js "Invalid target URL format. Must start with http:// or https://")).
Proof.
  intros D H1 H2. split; intros E.
  - rewrite (Worker_bad_format rt request seg t E D H1 H2).
    apply no_fetch_text.
  - rewrite (Binding_bad_format rt request seg t E D H1 H2).
    apply no_fetch_text.
Qed.

Lemma C4_invalid_target_witness :
  (let run := Worker.handleRequest Examples.fetch_ok
                (Examples.request_at "/proxx/ftp%3A%2F%2Fexample.com") in
   snd run = []
   /\ exists r,
        fst run = inl r
        /\ plain_text r 400 (js "Invalid target URL format."))
  /\ (let run := BindingWorker.handleRequest Examples.fetch_ok
                   (Examples.request_at "/relative%2Fpath") in
      snd run = []
      /\ exists r,
           fst run = inl r
           /\ plain_text r 400
                (js "Invalid target URL format. Must start with http:// or https://")).
Proof.
  split.
  - exact (proj1 (C4_invalid_target Examples.fetch_ok
                    (Examples.request_at "/proxx/ftp%3A%2F%2Fexample.com")
                    (js "ftp%3A%2F%2Fexample.com") (js "ftp://example.com")
                    eq_refl eq_refl eq_refl) eq_refl).
  - exact (proj2 (C4_invalid_target Examples.fetch_ok
                    (Examples.request_at "/relative%2Fpath")
                    (js "relative%2Fpath") (js "relative/path")
                    eq_refl eq_refl eq_refl) eq_refl).
Defined.

(** C5.  A segment that [decodeURIComponent] rejects is answered with
    status 400 and the plain text [Invalid URL encoding.], and [fetch] is
    not called. *)
Theorem C5_invalid_encoding (rt : Runtime) (request : Request)
        (seg : jsstring) :
  decodeURIComponent seg = None ->
  (Worker.encodedTargetUrl request = Some seg ->
   let run := Worker.handleRequest rt request in
   snd run = []
   /\ exists r, fst run = inl r /\ plain_text r 400 (js "Invalid URL encoding."))
  /\ (BindingWorker.encodedTargetUrl request = Some seg ->
      let run := BindingWorker.handleRequest rt request in
      snd run = []
      /\ exists r,
           fst run = inl r /\ plain_text r 400 (js "Invalid URL encoding.")).
Proof.
  intros D. split; intros E.
  - rewrite (Worker_bad_encoding rt request seg E D). apply no_fetch_text.
  - rewrite (Binding_bad_encoding rt request seg E D). apply no_fetch_text.
Qed.

Lemma C5_invalid_encoding_witness :
  (let run := Worker.handleRequest Examples.fetch_ok
                (Examples.request_at "/proxx/%zz") in
   snd run = []
   /\ exists r, fst run = inl r /\ plain_text r 400 (js "Invalid URL encoding."))
  /\ (let run := BindingWorker.handleRequest Examples.fetch_ok
                   (Examples.request_at "/%zz") in
      snd run = []
      /\ exists r,
           fst run = inl r /\ plain_text r 400 (js "Invalid URL encoding.")).
Proof.
  split.
  - exact (proj1 (C5_invalid_encoding Examples.fetch_ok
                    (Examples.request_at "/proxx/%zz") (js "%zz") eq_refl)
                 eq_refl).
  - exact (proj2 (C5_invalid_encoding Examples.fetch_ok
                    (Examples.request_at "/%zz") (js "%zz") eq_refl)
                 eq_refl).
Defined.

(** Every segment with a [%] that two hexadecimal digits do not follow is
    among the rejected ones. *)
Lemma malformed_segment_answer (rt : Runtime) (request : Request)
      (seg : jsstring) :
  malformed_escape seg ->
  (Worker.encodedTargetUrl request = Some seg ->
   let run := Worker.handleRequest rt request in
   snd run = []
   /\ exists r, fst run = inl r /\ plain_text r 400 (js "Invalid URL encoding."))
  /\ (BindingWorker.encodedTargetUrl request = Some seg ->
      let run := BindingWorker.handleRequest rt request in
      snd run = []
      /\ exists r,
           fst run = inl r /\ plain_text r 400 (js "Invalid URL encoding.")).
Proof.
  intros M%malformed_escape_rejected. split; intros E.
  - rewrite (Worker_bad_encoding rt request seg E M). apply no_fetch_text.
  - rewrite (Binding_bad_encoding rt request seg E M). apply no_fetch_text.
Qed.

(** The octets of a text that begins with the literal of the 500 answer. *)
Lemma failed_to_fetch_octets (m : jsstring) :
  UTF8Encode (js "Failed to fetch target URL: " ++ m)
  = js "Failed to fetch target URL: " ++ UTF8Encode m.
Proof. reflexivity. Qed.

(** C6.  When the upstream fetch rejects, the handler logs the error and
    answers with status 500 and a plain text that is
    [Failed to fetch target URL: ] followed by the message of the error:
    the rejection ends in a response, not in an error of the handler. *)
Theorem C6_fetch_failure (rt : Runtime) (request : Request)
        (pr : ProxyRequest) (e : Error) :
  fetch rt pr = inr e ->
  (In (Fetched pr) (snd (Worker.handleRequest rt request)) ->
   let run := Worker.handleRequest rt request in
   snd run = [Fetched pr; ConsoleError (js "PROXX Fetch Error:") e]
   /\ exists r,
        fst run = inl r
        /\ plain_text r 500 (js "Failed to fetch target URL: " ++ message e)
        /\ response_body r
           = Some (js "Failed to fetch target URL: " ++ UTF8Encode (message e)))
  /\ (In (Fetched pr) (snd (BindingWorker.handleRequest rt request)) ->
      let run := BindingWorker.handleRequest rt request in
      snd run = [Fetched pr; ConsoleError (js "PROXX Fetch Error:") e]
      /\ exists r,
           fst run = inl r
           /\ plain_text r 500 (js "Failed to fetch target URL: " ++ message e)
           /\ response_body r
              = Some (js "Failed to fetch target URL: "
                      ++ UTF8Encode (message e))).
Proof.
  intros F. split; intros I run; subst run.
  - rewrite (Worker_rejected rt request pr e F I), caught_answer.
    split; [reflexivity|]. eexists. split; [reflexivity|].
    split; [apply plain_text_response|].
    cbn [text_response response_body]. now rewrite failed_to_fetch_octets.
  - rewrite (Binding_rejected rt request pr e F I), caught_answer.
    split; [reflexivity|]. eexists. split; [reflexivity|].
    split; [apply plain_text_response|].
    cbn [text_response response_body]. now rewrite failed_to_fetch_octets.
Qed.

Lemma C6_fetch_failure_witness :
  (let request := Examples.request_at "/proxx/https%3A%2F%2Fexample.com" in
   let run := Worker.handleRequest Examples.fetch_refused request in
   snd run
   = [Fetched (forwarded request (js "https://example.com"));
      ConsoleError (js "PROXX Fetch Error:")
        {| message := js "connection refused" |}]
   /\ exists r,
        fst run = inl r
        /\ plain_text r 500
             (js "Failed to fetch target URL: " ++ js "connection refused")
        /\ response_body r
           = Some (js "Failed to fetch target URL: "
                   ++ UTF8Encode (js "connection refused")))
  /\ (let request := Examples.request_at "/https%3A%2F%2Fexample.com" in
      let run := BindingWorker.handleRequest Examples.fetch_refused request in
      snd run
      = [Fetched (forwarded request (js "https://example.com"));
         ConsoleError (js "PROXX Fetch Error:")
           {| message := js "connection refused" |}]
      /\ exists r,
           fst run = inl r
           /\ plain_text r 500
                (js "Failed to fetch target URL: " ++ js "connection refused")
           /\ response_body r
              = Some (js "Failed to fetch target URL: "
                      ++ UTF8Encode (js "connection refused"))).
Proof.
  split; intros request.
  - refine (proj1 (C6_fetch_failure Examples.fetch_refused request
                     (forwarded request (js "https://example.com"))
                     {| message := js "connection refused" |} eq_refl) _).
    vm_compute. left. reflexivity.
  - refine (proj2 (C6_fetch_failure Examples.fetch_refused request
                     (forwarded request (js "https://example.com"))
                     {| message := js "connection refused" |} eq_refl) _).
    vm_compute. left. reflexivity.
Defined.

(** C7, as amended.  A request whose segment decodes to a target with one
    of the two schemes goes to [new Request] with the decoded target, the
    method, the headers and the body of the inbound request and the
    redirect mode [follow].  When the constructor accepts the target, the
    request it makes carries exactly these and is fetched once; when the
    constructor throws, as it does for a target that is not a URL, the
    handler throws the same error: there is no outbound request, no fetch
    and no response. *)
Theorem C7_forwarded_request (rt : Runtime) (request : Request)
        (seg t : jsstring) :
  decodeURIComponent seg = Some t -> http_scheme t ->
  let init :=
    {| init_method := method request;
       init_headers := headers request;
       init_body := body request;
       init_redirect := follow |} in
  let proxyRequest :=
    {| proxy_url := t;
       proxy_method := method request;
       proxy_headers := headers request;
       proxy_body := body request;
       proxy_redirect := follow |} in
  (Worker.encodedTargetUrl request = Some seg ->
   match Request_error rt t init with
   | None =>
       filter is_fetch (snd (Worker.handleRequest rt request))
       = [Fetched proxyRequest]
   | Some thrown => Worker.handleRequest rt request = (inr thrown, [])
   end)
  /\ (BindingWorker.encodedTargetUrl request = Some seg ->
      match Request_error rt t init with
      | None =>
          filter is_fetch (snd (BindingWorker.handleRequest rt request))
          = [Fetched proxyRequest]
      | Some thrown =>
          BindingWorker.handleRequest rt request = (inr thrown, [])
      end).
Proof.
  intros D H init proxyRequest. split; intros E.
  - destruct (Request_error rt t init) as [thrown|] eqn:A.
    + exact (Worker_throws rt request seg t thrown E D H A).
    + rewrite (Worker_forwards rt request seg t E D H A).
      destruct (fetch rt _); [destruct (new_Response rt _ _)|]; reflexivity.
  - destruct (Request_error rt t init) as [thrown|] eqn:A.
    + exact (Binding_throws rt request seg t thrown E D H A).
    + rewrite (Binding_forwards rt request seg t E D H A).
      destruct (fetch rt _); [destruct (new_Response rt _ _)|]; reflexivity.
Qed.

Lemma C7_forwarded_request_witness :
  (let request :=
     Examples.request_at "/proxx/https%3A%2F%2Fexample.com%2Fpath%3Fq%3D1" in
   filter is_fetch (snd (Worker.handleRequest Examples.fetch_ok request))
   = [Fetched {| proxy_url := js "https://example.com/path?q=1";
                 proxy_method := js "POST";
                 proxy_headers := headers request;
                 proxy_body := Some [123; 125];
                 proxy_redirect := follow |}])
  /\ (let request := Examples.request_at "/https%3A%2F%2F" in
      BindingWorker.handleRequest Examples.fetch_refused request
      = (inr {| message := js "Invalid URL: https://" |}, [])).
Proof.
  split; intros request.
  - exact (proj1 (C7_forwarded_request Examples.fetch_ok request
                    (js "https%3A%2F%2Fexample.com%2Fpath%3Fq%3D1")
                    (js "https://example.com/path?q=1")
                    eq_refl (or_intror eq_refl)) eq_refl).
  - exact (proj2 (C7_forwarded_request Examples.fetch_refused request
                    (js "https%3A%2F%2F") (js "https://")
                    eq_refl (or_intror eq_refl)) eq_refl).
Defined.

(** C7, as stated, fails: the segment [http%3A%2F%2F] is extracted, decodes
    to [http://] and passes the scheme test, but [new Request] throws for
    it before the [try], so no outbound request is made and nothing is
    fetched. *)
Lemma C7_counterexample :
  let request := Examples.request_at "/proxx/http%3A%2F%2F" in
  let run := Worker.handleRequest Examples.fetch_ok request in
  Worker.encodedTargetUrl request = Some (js "http%3A%2F%2F")
  /\ decodeURIComponent (js "http%3A%2F%2F") = Some (js "http://")
  /\ http_scheme (js "http://")
  /\ run = (inr {| message := js "Invalid URL: http://" |}, [])
  /\ filter is_fetch (snd run) <> [Fetched (forwarded request (js "http://"))].
Proof.
  cbn zeta. split; [reflexivity|]. split; [reflexivity|].
  split; [left; reflexivity|]. split; [reflexivity|].
  vm_compute. discriminate.
Qed.

(** C8, as amended.  After an upstream fetch that resolved with a response
    that [new Response] accepts, the answer of either handler has the
    status, the status text and the body of the upstream response, and
    the upstream headers other than [content-security-policy],
    [x-frame-options] and [Access-Control-Allow-Origin] are in it as they
    came: the same entries in the same order, hence the same value under
    every other name. *)
Theorem C8_pass_through (rt : Runtime) (request : Request)
        (pr : ProxyRequest) (upstream : Response) :
  fetch rt pr = inl upstream ->
  relayable upstream = true ->
  (In (Fetched pr) (snd (Worker.handleRequest rt request)) ->
   exists out,
     Worker.handleRequest rt request = (inl out, [Fetched pr])
     /\ status out = status upstream
     /\ statusText out = statusText upstream
     /\ response_body out = response_body upstream
     /\ filter untouched (response_headers out)
        = filter untouched (response_headers upstream)
     /\ forall name,
          same_name name (js "content-security-policy") = false ->
          same_name name (js "x-frame-options") = false ->
          same_name name (js "Access-Control-Allow-Origin") = false ->
          get (response_headers out) name = get (response_headers upstream) name)
  /\ (In (Fetched pr) (snd (BindingWorker.handleRequest rt request)) ->
      exists out,
        BindingWorker.handleRequest rt request = (inl out, [Fetched pr])
        /\ status out = status upstream
        /\ statusText out = statusText upstream
        /\ response_body out = response_body upstream
        /\ filter untouched (response_headers out)
           = filter untouched (response_headers upstream)
        /\ forall name,
             same_name name (js "content-security-policy") = false ->
             same_name name (js "x-frame-options") = false ->
             same_name name (js "Access-Control-Allow-Origin") = false ->
             get (response_headers out) name
             = get (response_headers upstream) name).
Proof.
  intros F R. split; intros I.
  - rewrite (Worker_resolved rt request pr upstream F I),
      (relay_made rt upstream R).
    eexists. split; [reflexivity|].
    destruct (relayed_status false upstream) as (S1 & S2 & S3).
    split; [exact S1|]. split; [exact S2|]. split; [exact S3|].
    rewrite relayed_headers. cbn zeta. split.
    + rewrite !delete_keeps; [reflexivity| |];
        intros h; apply untouched_not_named; simpl; tauto.
    + intros name N1 N2 N3. now rewrite !get_delete_other.
  - rewrite (Binding_resolved rt request pr upstream F I),
      (relay_made rt upstream R).
    eexists. split; [reflexivity|].
    destruct (relayed_status true upstream) as (S1 & S2 & S3).
    split; [exact S1|]. split; [exact S2|]. split; [exact S3|].
    rewrite relayed_headers. cbn zeta. split.
    + rewrite set_keeps, !delete_keeps; [reflexivity| | |];
        intros h; apply untouched_not_named; simpl; tauto.
    + intros name N1 N2 N3.
      now rewrite get_set_other, !get_delete_other.
Qed.

Lemma C8_pass_through_witness :
  (let request := Examples.request_at "/proxx/https%3A%2F%2Fexample.com" in
   let pr := forwarded request (js "https://example.com") in
   exists out,
     Worker.handleRequest Examples.fetch_ok request = (inl out, [Fetched pr])
     /\ status out = 200
     /\ statusText out = js "OK"
     /\ response_body out = Some [60; 112; 62; 104; 105; 60; 47; 112; 62]
     /\ filter untouched (response_headers out)
        = filter untouched (response_headers Examples.upstream)
     /\ forall name,
          same_name name (js "content-security-policy") = false ->
          same_name name (js "x-frame-options") = false ->
          same_name name (js "Access-Control-Allow-Origin") = false ->
          get (response_headers out) name
          = get (response_headers Examples.upstream) name)
  /\ (let request := Examples.request_at "/https%3A%2F%2Fexample.com" in
      let pr := forwarded request (js "https://example.com") in
      exists out,
        BindingWorker.handleRequest Examples.fetch_ok request
        = (inl out, [Fetched pr])
        /\ status out = 200
        /\ statusText out = js "OK"
        /\ response_body out = Some [60; 112; 62; 104; 105; 60; 47; 112; 62]
        /\ filter untouched (response_headers out)
           = filter untouched (response_headers Examples.upstream)
        /\ forall name,
             same_name name (js "content-security-policy") = false ->
             same_name name (js "x-frame-options") = false ->
             same_name name (js "Access-Control-Allow-Origin") = false ->
             get (response_headers out) name
             = get (response_headers Examples.upstream) name).
Proof.
  split; intros request pr.
  - refine (proj1 (C8_pass_through Examples.fetch_ok request pr
                     Examples.upstream eq_refl eq_refl) _).
    vm_compute. left. reflexivity.
  - refine (proj2 (C8_pass_through Examples.fetch_ok request pr
                     Examples.upstream eq_refl eq_refl) _).
    vm_compute. left. reflexivity.
Defined.

(** C8, as stated, fails: the fetch resolves with an upstream response of
    status 999, [new Response] throws for that status inside the [try],
    and the answer is the logged 500 text: neither the status nor the body
    of the upstream. *)
Lemma C8_counterexample :
  let request := Examples.request_at "/proxx/https%3A%2F%2Fexample.com" in
  let pr := forwarded request (js "https://example.com") in
  let run := Worker.handleRequest Examples.fetch_999 request in
  fetch Examples.fetch_999 pr = inl Examples.upstream_999
  /\ snd run
     = [Fetched pr;
        ConsoleError (js "PROXX Fetch Error:")
          {| message := js "The status is outside the range 200 to 599." |}]
  /\ exists out,
       fst run = inl out
       /\ status out = 500
       /\ status out <> status Examples.upstream_999
       /\ response_body out <> response_body Examples.upstream_999.
Proof.
  cbn zeta. split; [reflexivity|]. split; [reflexivity|].
  eexists. split; [reflexivity|]. split; [reflexivity|].
  split; vm_compute; discriminate.
Qed.

(** C9.  The scheme is compared letter by letter: a decoded target whose
    head is [http://] or [https://] in another letter case is answered with
    status 400 and the text of the invalid target format, and is not
    forwarded. *)
Theorem C9_scheme_case_sensitive (rt : Runtime) (request : Request)
        (seg t : jsstring) :
  decodeURIComponent seg = Some t ->
  differs_only_in_case t (js "http://")
  \/ differs_only_in_case t (js "https://") ->
  (Worker.encodedTargetUrl request = Some seg ->
   let run := Worker.handleRequest rt request in
   snd run = []
   /\ exists r,
        fst run = inl r
        /\ plain_text r 400 (js "Invalid target URL format."))
  /\ (BindingWorker.encodedTargetUrl request = Some seg ->
      let run := BindingWorker.handleRequest rt request in
      snd run = []
      /\ exists r,
           fst run = inl r
           /\ plain_text r 400
                (js "Invalid target URL format. Must start with http:// or https://")).
Proof.
  intros D C.
  assert (startsWith t (js "http://") = false
          /\ startsWith t (js "https://") = false) as [H1 H2].
  { destruct C as [C|C];
      [now apply differs_only_in_case_http|now apply differs_only_in_case_https]. }
  split; intros E.
  - rewrite (Worker_bad_format rt request seg t E D H1 H2).
    apply no_fetch_text.
  - rewrite (Binding_bad_format rt request seg t E D H1 H2).
    apply no_fetch_text.
Qed.

Lemma upper_HTTP_differs :
  differs_only_in_case (js "HTTP://example.com") (js "http://").
Proof.
  exists (js "HTTP://"), (js "example.com").
  split; [reflexivity|]. split; [|reflexivity].
  intros E. vm_compute in E. discriminate E.
Defined.

Lemma mixed_Https_differs :
  differs_only_in_case (js "Https://example.com") (js "https://").
Proof.
  exists (js "Https://"), (js "example.com").
  split; [reflexivity|]. split; [|reflexivity].
  intros E. vm_compute in E. discriminate E.
Defined.

Lemma C9_scheme_case_sensitive_witness :
  (let run := Worker.handleRequest Examples.fetch_ok
                (Examples.request_at "/proxx/HTTP%3A%2F%2Fexample.com") in
   snd run = []
   /\ exists r,
        fst run = inl r
        /\ plain_text r 400 (js "Invalid target URL format."))
  /\ (let run := BindingWorker.handleRequest Examples.fetch_ok
                   (Examples.request_at "/Https%3A%2F%2Fexample.com") in
      snd run = []
      /\ exists r,
           fst run = inl r
           /\ plain_text r 400
                (js "Invalid target URL format. Must start with http:// or https://")).
Proof.
  split.
  - exact (proj1 (C9_scheme_case_sensitive Examples.fetch_ok
                    (Examples.request_at "/proxx/HTTP%3A%2F%2Fexample.com")
                    (js "HTTP%3A%2F%2Fexample.com") (js "HTTP://example.com")
                    eq_refl (or_introl upper_HTTP_differs)) eq_refl).
  - exact (proj2 (C9_scheme_case_sensitive Examples.fetch_ok
                    (Examples.request_at "/Https%3A%2F%2Fexample.com")
                    (js "Https%3A%2F%2Fexample.com") (js "Https://example.com")
                    eq_refl (or_intror mixed_Https_differs)) eq_refl).
Defined.

(** C10.  In the handler of the [/proxx/] marker, a path with nothing after
    the marker, such as [/proxx/], is not a missing target: the answer is
    status 400 with the text of the invalid target format.  The root page
    is the answer, with no call of [fetch], only for a path in which the
    marker does not occur. *)
Theorem C10_empty_target_rejected (rt : Runtime) (request : Request) :
  (Worker.encodedTargetUrl request = Some [] ->
   let run := Worker.handleRequest rt request in
   snd run = []
   /\ (exists r,
         fst run = inl r
         /\ plain_text r 400 (js "Invalid target URL format."))
   /\ fst run <> Worker.createRootResponse rt (hostname (url request)))
  /\ (Worker.handleRequest rt request
      = (Worker.createRootResponse rt (hostname (url request)), []) ->
      ~ occurs_in Worker.proxyPrefix (pathname (url request))).
Proof.
  split.
  - intros E run; subst run.
    rewrite (Worker_bad_format rt request [] [] E eq_refl eq_refl eq_refl).
    destruct (no_fetch_text rt (js "Invalid target URL format.")) as [T A].
    split; [exact T|]. split; [exact A|].
    rewrite answer_400, Worker_root_made. cbn [fst].
    intros R. apply (f_equal status_of) in R. discriminate R.
  - intros R O. destruct (Worker_marker request O) as [seg E].
    rewrite Worker_steps, E, Worker_root_made in R.
    destruct (decodeURIComponent seg) as [t|].
    2:{ rewrite answer_400 in R.
        apply (f_equal (fun p => status_of (fst p))) in R. discriminate R. }
    destruct (falsy t || _).
    { rewrite answer_400 in R.
      apply (f_equal (fun p => status_of (fst p))) in R. discriminate R. }
    destruct (new_Request rt t _);
      [|apply (f_equal (fun p => status_of (fst p))) in R; discriminate R].
    destruct (fetch rt _); [destruct (new_Response rt _ _)|];
      apply (f_equal snd) in R; discriminate R.
Qed.

Lemma C10_empty_target_rejected_witness :
  (let run := Worker.handleRequest Examples.fetch_ok
                (Examples.request_at "/proxx/") in
   snd run = []
   /\ (exists r,
         fst run = inl r
         /\ plain_text r 400 (js "Invalid target URL format."))
   /\ fst run <> Worker.createRootResponse Examples.fetch_ok (js "kenos.example"))
  /\ ~ occurs_in Worker.proxyPrefix (js "/prox/about").
Proof.
  split.
  - exact (proj1 (C10_empty_target_rejected Examples.fetch_ok
                    (Examples.request_at "/proxx/")) eq_refl).
  - exact (proj2 (C10_empty_target_rejected Examples.fetch_ok
                    (Examples.request_at "/prox/about")) eq_refl).
Defined.

End Properties.

(** ** Further properties of the handlers *)

Section Outcomes.

(** X1.  Either handler ends every request in one of these ways.  With no
    fetch: by the root page or a 400 plain text, or by throwing what
    [new Request] throws, with no response.  After exactly one fetch: with
    the status of the upstream, when the fetch resolved with a response
    that [new Response] accepts; with status 500, logged once, when it
    resolved with another response or was rejected.  So there is never a
    second fetch, and nothing is logged unless an error was caught. *)
Theorem X1_answered (rt : Runtime) (request : Request) :
  answered rt (Worker.htmlContent (hostname (url request)))
    (js "Invalid target URL format.")
    (Worker.handleRequest rt request)
  /\ answered rt BindingWorker.htmlContent
       (js "Invalid target URL format. Must start with http:// or https://")
       (BindingWorker.handleRequest rt request).
Proof.
  split.
  - rewrite Worker_steps.
    destruct (Worker.encodedTargetUrl request) as [seg|].
    2:{ left. rewrite Worker_root_made. split; [reflexivity|].
        eexists. split; [reflexivity|]. left. apply html_page_response. }
    destruct (decodeURIComponent seg) as [t|].
    2:{ left. rewrite answer_400. split; [reflexivity|].
        eexists. split; [reflexivity|]. right. left.
        apply plain_text_response. }
    destruct (falsy t || _).
    { left. rewrite answer_400. split; [reflexivity|].
      eexists. split; [reflexivity|]. right. right.
      apply plain_text_response. }
    destruct (new_Request rt t (forward_init request)) as [pr|thrown] eqn:N.
    2:{ right. left. apply new_Request_thrown in N.
        exists t, (forward_init request), thrown. now split. }
    right. right. destruct (fetch rt pr) as [up|e] eqn:F.
    + destruct (new_Response rt (body_of up) (as_init up)) as [r|e] eqn:M.
      * left. apply relay_made_inv in M as [R ->].
        exists pr, up, (relayed false up). repeat split; auto.
      * right. left. rewrite caught_answer.
        exists pr, up, e. eexists. repeat split; auto.
    + right. right. rewrite caught_answer.
      exists pr, e. eexists. repeat split; auto.
  - rewrite Binding_steps.
    destruct (BindingWorker.encodedTargetUrl request) as [seg|].
    2:{ left. rewrite Binding_root_made. split; [reflexivity|].
        eexists. split; [reflexivity|]. left. apply html_page_response. }
    destruct (decodeURIComponent seg) as [t|].
    2:{ left. rewrite answer_400. split; [reflexivity|].
        eexists. split; [reflexivity|]. right. left.
        apply plain_text_response. }
    destruct (falsy t || _).
    { left. rewrite answer_400. split; [reflexivity|].
      eexists. split; [reflexivity|]. right. right.
      apply plain_text_response. }
    destruct (new_Request rt t (forward_init request)) as [pr|thrown] eqn:N.
    2:{ right. left. apply new_Request_thrown in N.
        exists t, (forward_init request), thrown. now split. }
    right. right. destruct (fetch rt pr) as [up|e] eqn:F.
    + destruct (new_Response rt (body_of up) (as_init up)) as [r|e] eqn:M.
      * left. apply relay_made_inv in M as [R ->].
        exists pr, up, (relayed true up). repeat split; auto.
      * right. left. rewrite caught_answer.
        exists pr, up, e. eexists. repeat split; auto.
    + right. right. rewrite caught_answer.
      exists pr, e. eexists. repeat split; auto.
Qed.

(** X2.  Whatever either handler fetches is the decoded segment of the
    path, begins with [http://] or [https://], follows redirects and
    carries the method, the headers and the body of the inbound request:
    no other URL is ever fetched. *)
Theorem X2_only_http_fetched (rt : Runtime) (request : Request)
        (pr : ProxyRequest) :
  (In (Fetched pr) (snd (Worker.handleRequest rt request)) ->
   http_scheme (proxy_url pr)
   /\ (exists seg, Worker.encodedTargetUrl request = Some seg
                   /\ decodeURIComponent seg = Some (proxy_url pr))
   /\ pr = forwarded request (proxy_url pr))
  /\ (In (Fetched pr) (snd (BindingWorker.handleRequest rt request)) ->
      http_scheme (proxy_url pr)
      /\ (exists seg, BindingWorker.encodedTargetUrl request = Some seg
                      /\ decodeURIComponent seg = Some (proxy_url pr))
      /\ pr = forwarded request (proxy_url pr)).
Proof.
  split; intros I.
  - destruct (Worker_fetched rt request pr I) as (seg & t & E & D & H & A & ->).
    cbn [forwarded proxy_url]. repeat split; auto. now exists seg.
  - destruct (Binding_fetched rt request pr I) as (seg & t & E & D & H & A & ->).
    cbn [forwarded proxy_url]. repeat split; auto. now exists seg.
Qed.

Lemma X2_only_http_fetched_witness :
  (let request := Examples.request_at "/proxx/https%3A%2F%2Fexample.com" in
   let pr := forwarded request (js "https://example.com") in
   http_scheme (proxy_url pr)
   /\ (exists seg, Worker.encodedTargetUrl request = Some seg
                   /\ decodeURIComponent seg = Some (proxy_url pr))
   /\ pr = forwarded request (proxy_url pr))
  /\ (let request := Examples.request_at "/https%3A%2F%2Fexample.com" in
      let pr := forwarded request (js "https://example.com") in
      http_scheme (proxy_url pr)
      /\ (exists seg, BindingWorker.encodedTargetUrl request = Some seg
                      /\ decodeURIComponent seg = Some (proxy_url pr))
      /\ pr = forwarded request (proxy_url pr)).
Proof.
  split; intros request pr.
  - refine (proj1 (X2_only_http_fetched Examples.fetch_ok request pr) _).
    vm_compute. left. reflexivity.
  - refine (proj2 (X2_only_http_fetched Examples.fetch_refused request pr) _).
    vm_compute. left. reflexivity.
Defined.

(** X3.  A response given without a fetch is decided by the URL alone: it
    is the same for every method, header list, body and runtime, for the
    handler of the marker whenever the URLs agree and for the handler
    behind the binding whenever the paths agree. *)
Theorem X3_decided_by_path (rt rt' : Runtime) (request request' : Request)
        (r : Response) :
  (url request = url request' ->
   Worker.handleRequest rt request = (inl r, []) ->
   Worker.handleRequest rt' request' = (inl r, []))
  /\ (pathname (url request) = pathname (url request') ->
      BindingWorker.handleRequest rt request = (inl r, []) ->
      BindingWorker.handleRequest rt' request' = (inl r, [])).
Proof.
  split; intros U.
  - rewrite !Worker_steps. unfold Worker.encodedTargetUrl. rewrite <- U.
    destruct (indexOf _ _ =? -1); [now rewrite !Worker_root_made|].
    destruct (decodeURIComponent _) as [t|]; [|now rewrite !answer_400].
    destruct (falsy t || _); [now rewrite !answer_400|].
    destruct (new_Request rt t _); [|discriminate].
    destruct (fetch rt _); [destruct (new_Response rt _ _)|]; discriminate.
  - rewrite !Binding_steps. unfold BindingWorker.encodedTargetUrl.
    rewrite <- U.
    destruct (length _ <=? 1); [now rewrite !Binding_root_made|].
    destruct (decodeURIComponent _) as [t|]; [|now rewrite !answer_400].
    destruct (falsy t || _); [now rewrite !answer_400|].
    destruct (new_Request rt t _); [|discriminate].
    destruct (fetch rt _); [destruct (new_Response rt _ _)|]; discriminate.
Qed.

End Outcomes.

Lemma X3_decided_by_path_witness :
  (let request' :=
     {| url := url (Examples.request_at "/proxx/ftp%3A%2F%2Fexample.com");
        method := js "GET"; headers := []; body := None |} in
   Worker.handleRequest Examples.fetch_refused request'
   = (inl (text_response 400 (js "Invalid target URL format.")), []))
  /\ (let request' :=
        {| url := {| hostname := js "localhost"; pathname := js "/%zz" |};
           method := js "GET"; headers := []; body := None |} in
      BindingWorker.handleRequest Examples.fetch_refused request'
      = (inl (text_response 400 (js "Invalid URL encoding.")), [])).
Proof.
  split; intros request'.
  - exact (proj1 (X3_decided_by_path Examples.fetch_ok Examples.fetch_refused
                    (Examples.request_at "/proxx/ftp%3A%2F%2Fexample.com")
                    request'
                    (text_response 400 (js "Invalid target URL format.")))
                 eq_refl eq_refl).
  - exact (proj2 (X3_decided_by_path Examples.fetch_ok Examples.fetch_refused
                    (Examples.request_at "/%zz") request'
                    (text_response 400 (js "Invalid URL encoding.")))
                 eq_refl eq_refl).
Defined.

Section Extraction.

(** [indexOf] answers the least index of an occurrence. *)
Lemma indexOf_least (a p b : jsstring) :
  indexOf (a ++ p ++ b) p <= length a.
Proof.
  induction a as [|c a IH]; rewrite indexOf_eq.
  - cbn [app]. rewrite startsWith_app. unfold length. simpl. lia.
  - destruct (startsWith _ p); [unfold length; lia|]. cbn [app].
    pose proof (indexOf_occurs a p b) as N. apply Z.eqb_neq in N. rewrite N.
    unfold length in *. cbn [List.length]. lia.
Qed.

Lemma substring_after (a p b : jsstring) :
  substring (a ++ p ++ b) (length a + length p) = b.
Proof. now rewrite <- length_app, app_assoc, substring_app. Qed.

(** X4.  The handler of the marker takes as its segment what follows the
    leftmost [/proxx/] of the path, and only that: the segment is [seg]
    exactly when the path is [a], the marker and [seg] with no occurrence
    of the marker that begins before the end of [a]. *)
Theorem X4_leftmost_marker (request : Request) (seg : jsstring) :
  Worker.encodedTargetUrl request = Some seg
  <-> exists a,
        pathname (url request) = a ++ Worker.proxyPrefix ++ seg
        /\ forall a' b',
             pathname (url request) = a' ++ Worker.proxyPrefix ++ b' ->
             (List.length a <= List.length a')%nat.
Proof.
  unfold Worker.encodedTargetUrl.
  generalize (pathname (url request)), Worker.proxyPrefix.
  intros path p.
  split.
  - destruct (indexOf path p =? -1) eqn:K; [discriminate|].
    intros [= <-]. apply Z.eqb_neq in K.
    destruct (indexOf_found path p K) as (a & b & E & L).
    exists a. rewrite <- L. subst path. rewrite substring_after.
    split; [reflexivity|].
    intros a' b' E'. pose proof (indexOf_least a' p b') as M.
    rewrite <- E', <- L in M. unfold length in M. lia.
  - intros (a & E & Min).
    pose proof (indexOf_occurs a p seg) as N. rewrite <- E in N.
    destruct (indexOf_found path p N) as (a0 & b0 & E0 & L0).
    pose proof (Min a0 b0 E0) as M1.
    pose proof (indexOf_least a p seg) as M2. rewrite <- E, <- L0 in M2.
    unfold length in M2.
    assert (List.length a = List.length a0) as LL by lia.
    apply Z.eqb_neq in N. rewrite N. f_equal.
    rewrite <- L0. replace (length a0) with (length a)
      by (unfold length; now rewrite LL).
    rewrite E. apply substring_after.
Qed.

Lemma X4_leftmost_marker_witness :
  Worker.encodedTargetUrl (Examples.request_at "/a/proxx/b/proxx/c")
  = Some (js "b/proxx/c").
Proof.
  apply (proj2 (X4_leftmost_marker (Examples.request_at "/a/proxx/b/proxx/c")
                  (js "b/proxx/c"))).
  exists (js "/a"). split; [reflexivity|].
  intros a' b' E.
  destruct a' as [|x [|y a']]; [discriminate E|discriminate E|].
  cbn [List.length js map list_ascii_of_string]. lia.
Defined.

End Extraction.

Section Segments.

(** X5.  What stands before the leftmost marker does not count: a request
    whose path is [a], the marker and [rest], the marker not beginning
    inside [a], ends as the request with the path [/proxx/rest] and the
    same host name, method, headers and body. *)
Theorem X5_prefix_ignored (rt : Runtime) (request request' : Request)
        (a rest : jsstring) :
  indexOf (a ++ Worker.proxyPrefix) Worker.proxyPrefix = length a ->
  pathname (url request) = a ++ Worker.proxyPrefix ++ rest ->
  pathname (url request') = Worker.proxyPrefix ++ rest ->
  method request = method request' ->
  headers request = headers request' ->
  body request = body request' ->
  Worker.handleRequest rt request = Worker.handleRequest rt request'.
Proof.
  intros Ia P P' M H B.
  assert (Worker.encodedTargetUrl request = Some rest) as E.
  { unfold Worker.encodedTargetUrl. rewrite P, app_assoc.
    assert (indexOf (a ++ Worker.proxyPrefix) Worker.proxyPrefix <> -1) as N
        by (rewrite Ia; unfold length; lia).
    rewrite (indexOf_app _ rest _ N), Ia.
    replace (length a =? -1) with false
      by (symmetry; apply Z.eqb_neq; unfold length; lia).
    now rewrite <- app_assoc, substring_after. }
  assert (Worker.encodedTargetUrl request' = Some rest) as E'.
  { unfold Worker.encodedTargetUrl.
    now rewrite P', indexOf_at_start, Z.add_0_l, substring_app. }
  rewrite !Worker_steps, E, E'.
  assert (forward_init request = forward_init request') as F.
  { unfold forward_init. now rewrite M, H, B. }
  destruct (decodeURIComponent rest) as [t|]; [|reflexivity].
  destruct (falsy t || _); [reflexivity|]. now rewrite F.
Qed.

Lemma X5_prefix_ignored_witness :
  Worker.handleRequest Examples.fetch_ok
    (Examples.request_at "/app/v1/proxx/https%3A%2F%2Fexample.com")
  = Worker.handleRequest Examples.fetch_ok
      (Examples.request_at "/proxx/https%3A%2F%2Fexample.com").
Proof.
  exact (X5_prefix_ignored Examples.fetch_ok
           (Examples.request_at "/app/v1/proxx/https%3A%2F%2Fexample.com")
           (Examples.request_at "/proxx/https%3A%2F%2Fexample.com")
           (js "/app/v1") (js "https%3A%2F%2Fexample.com")
           eq_refl eq_refl eq_refl eq_refl eq_refl eq_refl).
Defined.

Lemma UTF16EncodeCodePoint_not_nil (V : Z) : UTF16EncodeCodePoint V <> [].
Proof. unfold UTF16EncodeCodePoint. destruct (V <=? 65535); discriminate. Qed.

Lemma decoded_not_nil (octets : list Z) (rest : option jsstring) :
  decoded octets rest <> Some [].
Proof.
  unfold decoded. destruct (utf8_decode octets) as [V|]; [|discriminate].
  destruct rest as [r|]; [|discriminate]. cbn [option_map]. intros [= E].
  apply app_eq_nil in E as [E _]. now apply UTF16EncodeCodePoint_not_nil in E.
Qed.

(** Only the empty string decodes to the empty string. *)
Lemma Decode_nil_inv (ps s : jsstring) : Decode ps s = Some [] -> s = [].
Proof.
  destruct s as [|C t]; [reflexivity|]. cbn [Decode]. intros H. exfalso.
  destruct (negb (C =? 37)).
  { destruct (Decode ps t); discriminate H. }
  destruct t as [|h1 [|h2 t1]]; try discriminate H.
  destruct (ParseHexOctet h1 h2) as [B|]; [|discriminate H].
  destruct (leading_ones B) as [|[|[|[|[|k]]]]]; try discriminate H.
  - destruct (Decode ps t1); [|discriminate H].
    cbn [option_map] in H. injection H as H.
    apply app_eq_nil in H as [H _]. destruct (mem B ps); discriminate H.
  - destruct t1 as [|p1 [|x1 [|y1 t2]]]; try discriminate H.
    destruct (escape_at p1 x1 y1); [|discriminate H].
    now apply decoded_not_nil in H.
  - destruct t1 as [|p1 [|x1 [|y1 [|p2 [|x2 [|y2 t2]]]]]]; try discriminate H.
    destruct (escape_at p1 x1 y1); [|discriminate H].
    destruct (escape_at p2 x2 y2); [|discriminate H].
    now apply decoded_not_nil in H.
  - destruct t1 as [|p1 [|x1 [|y1 [|p2 [|x2 [|y2 [|p3 [|x3 [|y3 t2]]]]]]]]];
      try discriminate H.
    destruct (escape_at p1 x1 y1); [|discriminate H].
    destruct (escape_at p2 x2 y2); [|discriminate H].
    destruct (escape_at p3 x3 y3); [|discriminate H].
    now apply decoded_not_nil in H.
Qed.

(** X6.  Behind the binding the decoded target is never the empty string,
    so there a 400 for the format always comes from the scheme test; under
    the marker the decoded target is empty exactly when nothing follows
    the leftmost marker. *)
Theorem X6_empty_target (request : Request) (seg : jsstring) :
  (BindingWorker.encodedTargetUrl request = Some seg ->
   decodeURIComponent seg <> Some [])
  /\ (Worker.encodedTargetUrl request = Some seg ->
      (decodeURIComponent seg = Some [] <-> seg = [])).
Proof.
  split.
  - intros [L S]%Binding_segment D. apply Decode_nil_inv in D. subst seg.
    apply Z.leb_gt in L. unfold substring, length in *.
    destruct (pathname (url request)) as [|c [|d t]]; cbn in *;
      try lia; discriminate D.
  - intros _. split; [apply Decode_nil_inv|now intros ->].
Qed.

Lemma X6_empty_target_witness :
  decodeURIComponent (js "%41") <> Some []
  /\ (decodeURIComponent [] = Some [] <-> @nil Z = []).
Proof.
  split.
  - exact (proj1 (X6_empty_target (Examples.request_at "/%41") (js "%41"))
                 eq_refl).
  - exact (proj2 (X6_empty_target (Examples.request_at "/proxx/") [])
                 eq_refl).
Defined.

(** A string without [%] decodes to itself. *)
Lemma Decode_verbatim (ps s : jsstring) : ~ In 37 s -> Decode ps s = Some s.
Proof.
  induction s as [|C t IH]; intros N; [reflexivity|].
  rewrite Decode_literal by (intros ->; apply N; now left).
  rewrite IH; [reflexivity|]. intros I. apply N. now right.
Qed.

(** X7.  A target written into the path as it is, without any [%], is taken
    verbatim: when it begins with [http://] or [https://] and
    [new Request] accepts it, the one fetch of either handler goes to
    exactly that string. *)
Theorem X7_verbatim_target (rt : Runtime) (request : Request)
        (seg : jsstring) :
  ~ In 37 seg -> http_scheme seg ->
  Request_error rt seg (forward_init request) = None ->
  (Worker.encodedTargetUrl request = Some seg ->
   filter is_fetch (snd (Worker.handleRequest rt request))
   = [Fetched (forwarded request seg)])
  /\ (BindingWorker.encodedTargetUrl request = Some seg ->
      filter is_fetch (snd (BindingWorker.handleRequest rt request))
      = [Fetched (forwarded request seg)]).
Proof.
  intros N H A. pose proof (Decode_verbatim [] seg N) as D.
  split; intros E.
  - rewrite (Worker_forwards rt request seg seg E D H A).
    destruct (fetch rt _); [destruct (new_Response rt _ _)|]; reflexivity.
  - rewrite (Binding_forwards rt request seg seg E D H A).
    destruct (fetch rt _); [destruct (new_Response rt _ _)|]; reflexivity.
Qed.

Lemma no_percent_example : ~ In 37 (js "https://example.com/a/b").
Proof. vm_compute. intuition discriminate. Defined.

Lemma X7_verbatim_target_witness :
  (let request := Examples.request_at "/proxx/https://example.com/a/b" in
   filter is_fetch (snd (Worker.handleRequest Examples.fetch_ok request))
   = [Fetched (forwarded request (js "https://example.com/a/b"))])
  /\ (let request := Examples.request_at "/https://example.com/a/b" in
      filter is_fetch (snd (BindingWorker.handleRequest Examples.fetch_ok request))
      = [Fetched (forwarded request (js "https://example.com/a/b"))]).
Proof.
  split; intros request.
  - exact (proj1 (X7_verbatim_target Examples.fetch_ok request
                    (js "https://example.com/a/b")
                    no_percent_example (or_intror eq_refl) eq_refl) eq_refl).
  - exact (proj2 (X7_verbatim_target Examples.fetch_ok request
                    (js "https://example.com/a/b")
                    no_percent_example (or_intror eq_refl) eq_refl) eq_refl).
Defined.

End Segments.

Section CleanRelay.

Lemma delete_absent (hs : Headers) (n : jsstring) :
  has hs n = false -> delete hs n = hs.
Proof.
  unfold has, delete. induction hs as [|h hs IH]; cbn [existsb filter];
    [reflexivity|].
  intros H. apply orb_false_iff in H as [H1 H2].
  rewrite H1. cbn [negb]. now rewrite IH.
Qed.

Lemma filter_nil_has (hs : Headers) (n : jsstring) :
  filter (named n) hs = [] -> has hs n = false.
Proof. intros H. now rewrite has_filter, H. Qed.

Lemma set_unchanged (hs : Headers) (n k v : jsstring) :
  filter (named n) hs = [(k, v)] -> set hs n v = hs.
Proof.
  induction hs as [|h hs IH]; cbn [filter set]; [discriminate|].
  destruct (named n h) eqn:E.
  - intros [= -> T]. cbn [fst]. f_equal.
    apply delete_absent. now apply filter_nil_has.
  - intros T. now rewrite IH.
Qed.

Lemma headers_delete_absent (r : Response) (n : jsstring) :
  has (response_headers r) n = false -> headers_delete r n = r.
Proof.
  intros H. unfold headers_delete. rewrite (delete_absent _ _ H).
  now destruct r.
Qed.

Lemma headers_set_unchanged (r : Response) (n k v : jsstring) :
  filter (named n) (response_headers r) = [(k, v)] -> headers_set r n v = r.
Proof.
  intros H. unfold headers_set. rewrite (set_unchanged _ _ _ _ H).
  now destruct r.
Qed.

(** A response with neither of the two headers is relayed as it is, but
    for the CORS header. *)
Lemma relayed_clean (r : Response) :
  has (response_headers r) (js "content-security-policy") = false ->
  has (response_headers r) (js "x-frame-options") = false ->
  relayed false r = r
  /\ relayed true r
     = headers_set r (js "Access-Control-Allow-Origin") (js "*").
Proof.
  intros C X. unfold relayed.
  now rewrite (headers_delete_absent r _ C), (headers_delete_absent r _ X).
Qed.

Lemma relayed_cors (r : Response) :
  relayed true r
  = headers_set (relayed false r) (js "Access-Control-Allow-Origin") (js "*").
Proof. reflexivity. Qed.

(** What the two handlers make of an upstream answer that [new Response]
    accepts. *)
Lemma Worker_relays (rt : Runtime) (request : Request) (pr : ProxyRequest)
      (upstream : Response) :
  fetch rt pr = inl upstream ->
  relayable upstream = true ->
  In (Fetched pr) (snd (Worker.handleRequest rt request)) ->
  Worker.handleRequest rt request
  = (inl (relayed false upstream), [Fetched pr]).
Proof.
  intros F R I.
  now rewrite (Worker_resolved rt request pr upstream F I),
    (relay_made rt upstream R).
Qed.

Lemma Binding_relays (rt : Runtime) (request : Request) (pr : ProxyRequest)
      (upstream : Response) :
  fetch rt pr = inl upstream ->
  relayable upstream = true ->
  In (Fetched pr) (snd (BindingWorker.handleRequest rt request)) ->
  BindingWorker.handleRequest rt request
  = (inl (relayed true upstream), [Fetched pr]).
Proof.
  intros F R I.
  now rewrite (Binding_resolved rt request pr upstream F I),
    (relay_made rt upstream R).
Qed.

(** What they make of one that [new Response] refuses. *)
Lemma Worker_refuses (rt : Runtime) (request : Request) (pr : ProxyRequest)
      (upstream : Response) :
  fetch rt pr = inl upstream ->
  relayable upstream = false ->
  In (Fetched pr) (snd (Worker.handleRequest rt request)) ->
  exists error,
    new_Response rt (body_of upstream) (as_init upstream) = inr error
    /\ Worker.handleRequest rt request = caught rt pr error.
Proof.
  intros F R I. destruct (relay_thrown rt upstream R) as [e T].
  exists e. split; [exact T|].
  now rewrite (Worker_resolved rt request pr upstream F I), T.
Qed.

Lemma Binding_refuses (rt : Runtime) (request : Request) (pr : ProxyRequest)
      (upstream : Response) :
  fetch rt pr = inl upstream ->
  relayable upstream = false ->
  In (Fetched pr) (snd (BindingWorker.handleRequest rt request)) ->
  exists error,
    new_Response rt (body_of upstream) (as_init upstream) = inr error
    /\ BindingWorker.handleRequest rt request = caught rt pr error.
Proof.
  intros F R I. destruct (relay_thrown rt upstream R) as [e T].
  exists e. split; [exact T|].
  now rewrite (Binding_resolved rt request pr upstream F I), T.
Qed.

(** X9.  An upstream answer that [new Response] accepts and that has
    neither of the two headers passes the handler of the marker untouched:
    the answer is the upstream response, status, status text, headers and
    body.  Behind the binding the same holds when the upstream also has
    just one [Access-Control-Allow-Origin] header, of value [*]. *)
Theorem X9_transparent_relay (rt : Runtime) (request : Request)
        (pr : ProxyRequest) (upstream : Response) :
  fetch rt pr = inl upstream ->
  relayable upstream = true ->
  has (response_headers upstream) (js "content-security-policy") = false ->
  has (response_headers upstream) (js "x-frame-options") = false ->
  (In (Fetched pr) (snd (Worker.handleRequest rt request)) ->
   fst (Worker.handleRequest rt request) = inl upstream)
  /\ (In (Fetched pr) (snd (BindingWorker.handleRequest rt request)) ->
      (exists k, filter (named (js "Access-Control-Allow-Origin"))
                        (response_headers upstream) = [(k, js "*")]) ->
      fst (BindingWorker.handleRequest rt request) = inl upstream).
Proof.
  intros F R C X. destruct (relayed_clean upstream C X) as [RW RB].
  split; intros I.
  - rewrite (Worker_relays rt request pr upstream F R I). cbn [fst].
    now rewrite RW.
  - intros [k A]. rewrite (Binding_relays rt request pr upstream F R I).
    cbn [fst]. rewrite RB. f_equal.
    now apply (headers_set_unchanged upstream _ k).
Qed.

End CleanRelay.

Section RelayAgain.

Lemma X9_transparent_relay_witness :
  (let request := Examples.request_at "/proxx/https%3A%2F%2Fexample.com" in
   fst (Worker.handleRequest MoreExamples.fetch_plain request)
   = inl MoreExamples.plain_upstream)
  /\ (let request := Examples.request_at "/https%3A%2F%2Fexample.com" in
      fst (BindingWorker.handleRequest MoreExamples.fetch_plain request)
      = inl MoreExamples.plain_upstream).
Proof.
  split; intros request.
  - refine (proj1 (X9_transparent_relay MoreExamples.fetch_plain request
                     (forwarded request (js "https://example.com"))
                     MoreExamples.plain_upstream
                     eq_refl eq_refl eq_refl eq_refl) _).
    vm_compute. left. reflexivity.
  - refine (proj2 (X9_transparent_relay MoreExamples.fetch_plain request
                     (forwarded request (js "https://example.com"))
                     MoreExamples.plain_upstream
                     eq_refl eq_refl eq_refl eq_refl) _ _).
    + vm_compute. left. reflexivity.
    + exists (js "access-control-allow-origin"). reflexivity.
Defined.

(** A relayed answer passes a second relay unchanged. *)
Lemma relayed_again (cors : bool) (r : Response) :
  relayed cors (relayed cors r) = relayed cors r.
Proof.
  destruct (relayed_has_neither cors r) as [C X].
  destruct (relayed_clean (relayed cors r) C X) as [RW RB].
  destruct cors; [|exact RW]. rewrite RB.
  rewrite relayed_cors at 1.
  destruct (filter_set_same (response_headers (relayed false r))
              (js "Access-Control-Allow-Origin") (js "*")) as [k A].
  rewrite relayed_cors. now apply (headers_set_unchanged _ _ k).
Qed.

(** The 500 text passes the handler of the marker unchanged. *)
Lemma text_response_relayed (text : jsstring) :
  relayable (text_response 500 text) = true
  /\ relayed false (text_response 500 text) = text_response 500 text.
Proof. split; reflexivity. Qed.

(** X10.  Relaying is idempotent.  An answer that the handler of the
    marker gave after a fetch that resolved passes through that handler
    unchanged, when it comes back as the upstream answer of another
    request; so does an answer that the handler behind the binding has
    relayed from an upstream response that [new Response] accepts. *)
Theorem X10_relay_idempotent (rt rt' : Runtime)
        (request request' : Request) (pr pr' : ProxyRequest)
        (upstream : Response) :
  fetch rt pr = inl upstream ->
  (In (Fetched pr) (snd (Worker.handleRequest rt request)) ->
   exists out,
     fst (Worker.handleRequest rt request) = inl out
     /\ (fetch rt' pr' = inl out ->
         In (Fetched pr') (snd (Worker.handleRequest rt' request')) ->
         fst (Worker.handleRequest rt' request') = inl out))
  /\ (relayable upstream = true ->
      In (Fetched pr) (snd (BindingWorker.handleRequest rt request)) ->
      exists out,
        fst (BindingWorker.handleRequest rt request) = inl out
        /\ (fetch rt' pr' = inl out ->
            In (Fetched pr') (snd (BindingWorker.handleRequest rt' request')) ->
            fst (BindingWorker.handleRequest rt' request') = inl out)).
Proof.
  intros F. split.
  - intros I. destruct (relayable upstream) eqn:R.
    + rewrite (Worker_relays rt request pr upstream F R I).
      eexists. split; [reflexivity|]. intros F' I'.
      rewrite (Worker_relays rt' request' pr' _ F'
                 (eq_trans (relayable_relayed false upstream) R) I').
      cbn [fst]. now rewrite relayed_again.
    + destruct (Worker_refuses rt request pr upstream F R I) as (e & _ & ->).
      rewrite caught_answer. eexists. split; [reflexivity|]. intros F' I'.
      destruct (text_response_relayed
                  (js "Failed to fetch target URL: " ++ message e)) as [R' T].
      rewrite (Worker_relays rt' request' pr' _ F' R' I'). cbn [fst].
      now rewrite T.
  - intros R I. rewrite (Binding_relays rt request pr upstream F R I).
    eexists. split; [reflexivity|]. intros F' I'.
    rewrite (Binding_relays rt' request' pr' _ F'
               (eq_trans (relayable_relayed true upstream) R) I').
    cbn [fst]. now rewrite relayed_again.
Qed.

Lemma X10_relay_idempotent_witness :
  (let request := Examples.request_at "/proxx/https%3A%2F%2Fexample.com" in
   let request' := Examples.request_at "/proxx/http%3A%2F%2Fkenos.example" in
   fst (Worker.handleRequest Examples.fetch_ok request)
   = inl (relayed false Examples.upstream)
   /\ fst (Worker.handleRequest MoreExamples.fetch_relayed request')
      = inl (relayed false Examples.upstream))
  /\ (let request := Examples.request_at "/https%3A%2F%2Fexample.com" in
      let request' := Examples.request_at "/http%3A%2F%2Fkenos.example" in
      fst (BindingWorker.handleRequest Examples.fetch_ok request)
      = inl (relayed true Examples.upstream)
      /\ fst (BindingWorker.handleRequest MoreExamples.fetch_relayed_binding
                request')
         = inl (relayed true Examples.upstream)).
Proof.
  split; intros request request'.
  - assert (In (Fetched (forwarded request (js "https://example.com")))
               (snd (Worker.handleRequest Examples.fetch_ok request))) as I
        by (vm_compute; left; reflexivity).
    assert (In (Fetched (forwarded request' (js "http://kenos.example")))
               (snd (Worker.handleRequest MoreExamples.fetch_relayed request')))
      as I' by (vm_compute; left; reflexivity).
    destruct (proj1 (X10_relay_idempotent Examples.fetch_ok
                       MoreExamples.fetch_relayed request request'
                       (forwarded request (js "https://example.com"))
                       (forwarded request' (js "http://kenos.example"))
                       Examples.upstream eq_refl) I) as (out & E & Again).
    assert (out = relayed false Examples.upstream) as ->
        by (vm_compute in E; injection E as <-; reflexivity).
    split; [exact E|exact (Again eq_refl I')].
  - assert (In (Fetched (forwarded request (js "https://example.com")))
               (snd (BindingWorker.handleRequest Examples.fetch_ok request)))
      as I by (vm_compute; left; reflexivity).
    assert (In (Fetched (forwarded request' (js "http://kenos.example")))
               (snd (BindingWorker.handleRequest
                       MoreExamples.fetch_relayed_binding request')))
      as I' by (vm_compute; left; reflexivity).
    destruct (proj2 (X10_relay_idempotent Examples.fetch_ok
                       MoreExamples.fetch_relayed_binding request request'
                       (forwarded request (js "https://example.com"))
                       (forwarded request' (js "http://kenos.example"))
                       Examples.upstream eq_refl) eq_refl I)
      as (out & E & Again).
    assert (out = relayed true Examples.upstream) as ->
        by (vm_compute in E; injection E as <-; reflexivity).
    split; [exact E|exact (Again eq_refl I')].
Defined.

End RelayAgain.

Section Variants.

(** X8.  The two handlers differ by the CORS header and one message only.
    On the same target segment, method, headers and body they make the
    same fetch, log the same and end with the same status, or both throw
    what [new Request] throws.  After a fetch that resolved with a
    response that [new Response] accepts, the answer behind the binding is
    the answer under the marker with [Access-Control-Allow-Origin] set to
    [*]; after any other fetch, for a segment that does not decode and for
    a target that [new Request] refuses, the two handlers end alike. *)
Theorem X8_variants_agree (rt : Runtime) (requestW requestB : Request)
        (seg : jsstring) :
  Worker.encodedTargetUrl requestW = Some seg ->
  BindingWorker.encodedTargetUrl requestB = Some seg ->
  method requestW = method requestB ->
  headers requestW = headers requestB ->
  body requestW = body requestB ->
  let w := Worker.handleRequest rt requestW in
  let b := BindingWorker.handleRequest rt requestB in
  snd b = snd w
  /\ status_of (fst b) = status_of (fst w)
  /\ (forall pr,
        In (Fetched pr) (snd w) ->
        match fetch rt pr with
        | inl upstream =>
            if relayable upstream
            then exists out,
                   fst w = inl out
                   /\ fst b = inl (headers_set out
                                     (js "Access-Control-Allow-Origin")
                                     (js "*"))
            else fst b = fst w
        | inr _ => fst b = fst w
        end)
  /\ (decodeURIComponent seg = None -> fst b = fst w)
  /\ (forall t thrown,
        decodeURIComponent seg = Some t -> http_scheme t ->
        Request_error rt t (forward_init requestW) = Some thrown ->
        b = w).
Proof.
  intros EW EB M H B w b. subst w b.
  assert (forward_init requestB = forward_init requestW) as F.
  { unfold forward_init. now rewrite M, H, B. }
  rewrite Worker_steps, Binding_steps, EW, EB, F.
  destruct (decodeURIComponent seg) as [t|].
  2:{ split; [reflexivity|]. split; [reflexivity|].
      split; [intros pr []|]. split; [reflexivity|discriminate]. }
  destruct (falsy t || _) eqn:V.
  { rewrite !answer_400. cbn [fst snd status_of text_response status].
    split; [reflexivity|]. split; [reflexivity|].
    split; [intros pr []|]. split; [discriminate|].
    intros t' thrown [= <-] S _. rewrite (http_scheme_passes t S) in V. discriminate V. }
  destruct (new_Request rt t (forward_init requestW)) as [pr|thrown] eqn:N.
  2:{ split; [reflexivity|]. split; [reflexivity|].
      split; [intros pr []|]. split; [discriminate|reflexivity]. }
  assert (forall t' thrown,
             Some t = Some t' -> http_scheme t' ->
             Request_error rt t' (forward_init requestW) = Some thrown ->
             False) as NT.
  { intros t' thrown [= <-] _ T%new_Request_thrown. congruence. }
  destruct (fetch rt pr) as [up|e] eqn:R.
  - destruct (relayable up) eqn:A.
    + rewrite (relay_made rt up A). cbn [fst snd status_of].
      split; [reflexivity|].
      split; [now destruct (relayed_status true up) as [-> _],
                           (relayed_status false up) as [-> _]|].
      split; [|split; [discriminate|intros t' thrown D S T;
                                     destruct (NT t' thrown D S T)]].
      intros pr' [[= <-]|[]]. rewrite R, A.
      exists (relayed false up). split; reflexivity.
    + destruct (relay_thrown rt up A) as [e T]. rewrite T.
      split; [reflexivity|]. split; [reflexivity|].
      split; [|split; [discriminate|intros t' thrown D S T';
                                     destruct (NT t' thrown D S T')]].
      rewrite caught_answer. cbn [fst snd].
      intros pr' [[= <-]|[I|[]]]; [|discriminate I]. now rewrite R, A.
  - split; [reflexivity|]. split; [reflexivity|].
    split; [|split; [discriminate|intros t' thrown D S T;
                                   destruct (NT t' thrown D S T)]].
    rewrite caught_answer. cbn [fst snd].
    intros pr' [[= <-]|[I|[]]]; [|discriminate I]. now rewrite R.
Qed.

Lemma X8_variants_agree_witness :
  let requestW := Examples.request_at "/proxx/https%3A%2F%2Fexample.com" in
  let requestB := Examples.request_at "/https%3A%2F%2Fexample.com" in
  let w := Worker.handleRequest Examples.fetch_ok requestW in
  let b := BindingWorker.handleRequest Examples.fetch_ok requestB in
  snd b = snd w
  /\ status_of (fst b) = status_of (fst w)
  /\ exists out,
       fst w = inl out
       /\ fst b = inl (headers_set out (js "Access-Control-Allow-Origin")
                         (js "*")).
Proof.
  intros requestW requestB w b.
  destruct (X8_variants_agree Examples.fetch_ok requestW requestB
              (js "https%3A%2F%2Fexample.com")
              eq_refl eq_refl eq_refl eq_refl eq_refl)
    as (T & S & R & _).
  split; [exact T|]. split; [exact S|].
  refine (R (forwarded requestW (js "https://example.com")) _).
  vm_compute. left. reflexivity.
Defined.

End Variants.

Section WellFormed.

Lemma utf8_decode_scalar (octets : list Z) (V : Z) :
  utf8_decode octets = Some V -> scalar_value V.
Proof.
  unfold utf8_decode, scalar_value.
  destruct octets as [|b0 [|b1 [|b2 [|b3 [|b4 t]]]]]; try discriminate.
  - destruct (is_continuation b1 && _) eqn:E; [|discriminate].
    intros [= <-]. unfold is_lead, is_trail.
    repeat split; try dlia; decide_tests; reflexivity.
  - destruct (is_continuation b1 && _ && _ && _) eqn:E; [|discriminate].
    intros [= <-]. apply andb_true_iff in E as [E S].
    apply negb_true_iff, orb_false_iff in S as [S1 S2].
    repeat split; try dlia; assumption.
  - destruct (is_continuation b1 && _ && _ && _ && _) eqn:E; [|discriminate].
    intros [= <-]. apply andb_true_iff in E as [E U].
    apply andb_true_iff in E as [E L]. apply Z.leb_le in U, L.
    unfold is_lead, is_trail.
    repeat split; try lia; decide_tests; reflexivity.
Qed.

(** A scalar value in UTF-16 goes well before any well-formed string. *)
Lemma well_formed_scalar (V : Z) (r : jsstring) :
  scalar_value V -> well_formed r = true -> is_string r ->
  well_formed (UTF16EncodeCodePoint V ++ r) = true
  /\ is_string (UTF16EncodeCodePoint V ++ r).
Proof.
  intros S W I. pose proof (scalar_value_cases V S) as R.
  destruct S as (S0 & S1 & S2). unfold UTF16EncodeCodePoint.
  destruct (V <=? 65535) eqn:E; bool_to_Z; cbn [app well_formed].
  - rewrite S1, S2, W. split; [reflexivity|].
    constructor; [unfold code_unit; lia|exact I].
  - assert (is_lead (55296 + (V - 65536) / 1024) = true) as ->.
    { unfold is_lead. decide_tests. reflexivity. }
    assert (is_trail (56320 + (V - 65536) mod 1024) = true) as ->.
    { unfold is_trail. decide_tests. reflexivity. }
    split; [exact W|].
    constructor; [unfold code_unit; dlia|].
    constructor; [unfold code_unit; dlia|exact I].
Qed.

Lemma well_formed_ascii (c : Z) (r : jsstring) :
  0 <= c < 128 -> well_formed r = true -> is_string r ->
  well_formed (c :: r) = true /\ is_string (c :: r).
Proof.
  intros C W I.
  assert (scalar_value c) as S.
  { unfold scalar_value, is_lead, is_trail. repeat split; try lia;
      decide_tests; reflexivity. }
  assert (UTF16EncodeCodePoint c = [c]) as E
      by (unfold UTF16EncodeCodePoint; now decide_tests).
  pose proof (well_formed_scalar c r S W I) as P. now rewrite E in P.
Qed.

Lemma decoded_well_formed (octets : list Z) (rest : option jsstring)
      (t : jsstring) :
  (forall r, rest = Some r -> well_formed r = true /\ is_string r) ->
  decoded octets rest = Some t -> well_formed t = true /\ is_string t.
Proof.
  intros IH. unfold decoded.
  destruct (utf8_decode octets) as [V|] eqn:U; [|discriminate].
  destruct rest as [r|]; [|discriminate]. intros [= <-].
  destruct (IH r eq_refl) as [W I].
  apply well_formed_scalar; auto. now apply (utf8_decode_scalar octets).
Qed.

Lemma ascii_only_tail (c : Z) (s : jsstring) :
  ascii_only (c :: s) -> ascii_only s.
Proof. intros A x I. apply A. now right. Qed.

Lemma Decode_well_formed_bounded (n : nat) :
  forall s t, (List.length s <= n)%nat -> ascii_only s ->
              Decode [] s = Some t -> well_formed t = true /\ is_string t.
Proof.
  induction n as [|n IH]; intros s t Hn A H.
  { destruct s; [|simpl in Hn; lia]. injection H as <-.
    split; [reflexivity|constructor]. }
  destruct s as [|C s1].
  { injection H as <-. split; [reflexivity|constructor]. }
  cbn [List.length] in Hn. cbn [Decode] in H.
  assert (0 <= C < 128) as HC by (apply A; now left).
  apply ascii_only_tail in A.
  destruct (negb (C =? 37)).
  { destruct (Decode [] s1) as [r|] eqn:D; [|discriminate].
    injection H as <-. destruct (IH s1 r) as [W I]; auto; [lia|].
    now apply well_formed_ascii. }
  destruct s1 as [|h1 [|h2 t1]]; try discriminate.
  do 2 apply ascii_only_tail in A. cbn [List.length] in Hn.
  destruct (ParseHexOctet h1 h2) as [B|] eqn:P; [|discriminate].
  pose proof (ParseHexOctet_range h1 h2 B P) as RB.
  destruct (leading_ones B) as [|[|[|[|[|k]]]]] eqn:LB; try discriminate.
  - destruct (Decode [] t1) as [r|] eqn:D; [|discriminate].
    cbn [mem existsb option_map app] in H. injection H as <-.
    destruct (IH t1 r) as [W I]; auto; [lia|].
    apply well_formed_ascii; auto.
    unfold leading_ones in LB. destruct (B <? 128) eqn:E; bool_to_Z; [lia|].
    repeat match type of LB with
           | (if ?c then _ else _) = _ => destruct c
           end; discriminate.
  - destruct t1 as [|p1 [|x1 [|y1 t2]]]; try discriminate.
    do 3 apply ascii_only_tail in A. cbn [List.length] in Hn.
    destruct (escape_at p1 x1 y1); [|discriminate].
    apply (decoded_well_formed _ _ _) in H; auto.
    intros r D. apply (IH t2 r); auto. lia.
  - destruct t1 as [|p1 [|x1 [|y1 [|p2 [|x2 [|y2 t2]]]]]]; try discriminate.
    do 6 apply ascii_only_tail in A. cbn [List.length] in Hn.
    destruct (escape_at p1 x1 y1); [|discriminate].
    destruct (escape_at p2 x2 y2); [|discriminate].
    apply (decoded_well_formed _ _ _) in H; auto.
    intros r D. apply (IH t2 r); auto. lia.
  - destruct t1 as [|p1 [|x1 [|y1 [|p2 [|x2 [|y2 [|p3 [|x3 [|y3 t2]]]]]]]]];
      try discriminate.
    do 9 apply ascii_only_tail in A. cbn [List.length] in Hn.
    destruct (escape_at p1 x1 y1); [|discriminate].
    destruct (escape_at p2 x2 y2); [|discriminate].
    destruct (escape_at p3 x3 y3); [|discriminate].
    apply (decoded_well_formed _ _ _) in H; auto.
    intros r D. apply (IH t2 r); auto. lia.
Qed.

Lemma ascii_only_substring (s : jsstring) (k : Z) :
  ascii_only s -> ascii_only (substring s k).
Proof.
  intros A c I. apply A. unfold substring in I.
  rewrite <- (firstn_skipn (Z.to_nat k) s). apply in_or_app. now right.
Qed.

(** X11.  For an ASCII path, as the path of a parsed URL is, whatever either
    handler fetches is a well-formed UTF-16 string: every escape of the
    path has become whole characters, never a surrogate on its own. *)
Theorem X11_target_well_formed (rt : Runtime) (request : Request)
        (pr : ProxyRequest) :
  ascii_only (pathname (url request)) ->
  (In (Fetched pr) (snd (Worker.handleRequest rt request)) ->
   well_formed (proxy_url pr) = true /\ is_string (proxy_url pr))
  /\ (In (Fetched pr) (snd (BindingWorker.handleRequest rt request)) ->
      well_formed (proxy_url pr) = true /\ is_string (proxy_url pr)).
Proof.
  intros A. split; intros I.
  - destruct (Worker_fetched rt request pr I) as (seg & t & E & D & H & _ & ->).
    apply Worker_segment in E as [_ <-]. cbn [forwarded proxy_url].
    apply (Decode_well_formed_bounded _ _ t (le_n _)) in D; auto.
    now apply ascii_only_substring.
  - destruct (Binding_fetched rt request pr I) as (seg & t & E & D & H & _ & ->).
    apply Binding_segment in E as [_ <-]. cbn [forwarded proxy_url].
    apply (Decode_well_formed_bounded _ _ t (le_n _)) in D; auto.
    now apply ascii_only_substring.
Qed.



Lemma escaped_path_ascii : ascii_only (js "/proxx/https%3A%2F%2Fa.example%2F%C3%A9").
Proof.
  intros c I. vm_compute in I.
  repeat (destruct I as [<-|I]; [lia|]). destruct I.
Defined.

Lemma X11_target_well_formed_witness :
  let request := Examples.request_at "/proxx/https%3A%2F%2Fa.example%2F%C3%A9" in
  let pr := forwarded request (js "https://a.example/" ++ [233]) in
  well_formed (proxy_url pr) = true /\ is_string (proxy_url pr).
Proof.
  intros request pr.
  refine (proj1 (X11_target_well_formed Examples.fetch_ok request pr
                   escaped_path_ascii) _).
  vm_compute. left. reflexivity.
Defined.

End WellFormed.
Section Escapes.

(** X12.  A segment in which some [%] is not followed by two hexadecimal
    digits, wherever it stands and whatever else the segment holds, is
    rejected by the decoding: both handlers answer 400 with
    [Invalid URL encoding.] and do not fetch. *)
Theorem X12_malformed_escape_answer (rt : Runtime) (request : Request)
        (seg : jsstring) :
  malformed_escape seg ->
  decodeURIComponent seg = None
  /\ (Worker.encodedTargetUrl request = Some seg ->
      Worker.handleRequest rt request
      = (inl (text_response 400 (js "Invalid URL encoding.")), []))
  /\ (BindingWorker.encodedTargetUrl request = Some seg ->
      BindingWorker.handleRequest rt request
      = (inl (text_response 400 (js "Invalid URL encoding.")), [])).
Proof.
  intros M%malformed_escape_rejected. split; [exact M|]. split; intros E.
  - rewrite (Worker_bad_encoding rt request seg E M). now rewrite answer_400.
  - rewrite (Binding_bad_encoding rt request seg E M). now rewrite answer_400.
Qed.

Lemma trailing_percent_malformed :
  malformed_escape (js "https%3A%2F%2Fexample.com%2Fsale-50%").
Proof.
  exists (js "https%3A%2F%2Fexample.com%2Fsale-50"), []. split; reflexivity.
Defined.

Lemma X12_malformed_escape_answer_witness :
  decodeURIComponent (js "https%3A%2F%2Fexample.com%2Fsale-50%") = None
  /\ Worker.handleRequest Examples.fetch_ok
       (Examples.request_at "/proxx/https%3A%2F%2Fexample.com%2Fsale-50%")
     = (inl (text_response 400 (js "Invalid URL encoding.")), [])
  /\ BindingWorker.handleRequest Examples.fetch_ok
       (Examples.request_at "/https%3A%2F%2Fexample.com%2Fsale-50%")
     = (inl (text_response 400 (js "Invalid URL encoding.")), []).
Proof.
  split; [|split].
  - exact (proj1 (X12_malformed_escape_answer Examples.fetch_ok
                    (Examples.request_at "/") _ trailing_percent_malformed)).
  - exact (proj1 (proj2 (X12_malformed_escape_answer Examples.fetch_ok
                    (Examples.request_at "/proxx/https%3A%2F%2Fexample.com%2Fsale-50%")
                    _ trailing_percent_malformed)) eq_refl).
  - exact (proj2 (proj2 (X12_malformed_escape_answer Examples.fetch_ok
                    (Examples.request_at "/https%3A%2F%2Fexample.com%2Fsale-50%")
                    _ trailing_percent_malformed)) eq_refl).
Defined.

Lemma hexdigit_ascii (d : Z) : 0 <= d < 16 -> 0 <= hexdigit d < 128.
Proof. unfold hexdigit. destruct (d <? 10); lia. Qed.

Lemma pct_ascii (b : Z) : 0 <= b < 256 -> ascii_only (pct b).
Proof.
  intros H c [<-|[<-|[<-|[]]]]; [lia| |]; apply hexdigit_ascii; dlia.
Qed.

Lemma utf8_encode_octets (cp : Z) :
  0 <= cp <= 1114111 -> forall b, In b (utf8_encode cp) -> 0 <= b < 256.
Proof.
  intros R b. unfold utf8_encode.
  destruct (cp <? 128) eqn:E1; [|destruct (cp <? 2048) eqn:E2;
    [|destruct (cp <? 65536) eqn:E3]]; bool_to_Z; cbn [In];
    intros I; repeat (destruct I as [<-|I]; [dlia|]); destruct I.
Qed.

Lemma escapes_ascii (cp : Z) :
  0 <= cp <= 1114111 -> ascii_only (flat_map pct (utf8_encode cp)).
Proof.
  intros R c I. apply in_flat_map in I as (b & Ib & Ic).
  apply (pct_ascii b); [|exact Ic]. now apply (utf8_encode_octets cp).
Qed.

Lemma ascii_only_app (a b : jsstring) :
  ascii_only a -> ascii_only b -> ascii_only (a ++ b).
Proof. intros A B c I. apply in_app_or in I as [I|I]; auto. Qed.

Lemma unreserved_ascii (C : Z) : mem C uriUnreserved = true -> 0 <= C < 128.
Proof.
  intros M. unfold mem in M. apply existsb_exists in M as (x & I & E).
  apply Z.eqb_eq in E. subst x. vm_compute in I.
  repeat (destruct I as [<-|I]; [lia|]). destruct I.
Qed.

(** What [encodeURIComponent] yields is ASCII. *)
Lemma Encode_ascii_bounded (n : nat) :
  forall u e, (List.length u <= n)%nat -> is_string u ->
              encodeURIComponent u = Some e -> ascii_only e.
Proof.
  unfold encodeURIComponent.
  induction n as [|n IH]; intros u e Hn Hu He.
  { destruct u; [|simpl in Hn; lia]. injection He as <-. intros c []. }
  destruct u as [|C t]; [injection He as <-; intros c []|].
  inversion Hu as [|? ? HC Ht]; subst. cbn [Encode] in He.
  cbn [List.length] in Hn. unfold code_unit in HC.
  destruct (mem C uriUnreserved) eqn:M.
  { destruct (Encode uriUnreserved t) as [e'|] eqn:Et; [|discriminate].
    injection He as <-. intros c [<-|I]; [now apply unreserved_ascii|].
    apply (IH t e'); auto. lia. }
  destruct (is_trail C) eqn:T; [discriminate|].
  destruct (is_lead C) eqn:L.
  - destruct t as [|D t']; [discriminate|].
    destruct (is_trail D) eqn:TD; [|discriminate].
    destruct (Encode uriUnreserved t') as [e'|] eqn:Et; [|discriminate].
    injection He as <-. inversion Ht; subst. cbn [List.length] in Hn.
    apply ascii_only_app; [|apply (IH t' e'); auto; lia].
    apply escapes_ascii.
    destruct (pair_code_point_scalar C D L TD) as [R _]. exact R.
  - destruct (Encode uriUnreserved t) as [e'|] eqn:Et; [|discriminate].
    injection He as <-.
    apply ascii_only_app; [|apply (IH t e'); auto; lia].
    apply escapes_ascii. lia.
Qed.

Lemma ascii_only_is_string (s : jsstring) : ascii_only s -> is_string s.
Proof.
  intros A. apply Forall_forall. intros c I. unfold code_unit.
  specialize (A c I). lia.
Qed.

(** The encoding of a target with one of the two schemes begins with
    neither. *)
Lemma encoded_scheme_hidden (u e : jsstring) :
  http_scheme u -> encodeURIComponent u = Some e ->
  startsWith e (js "http://") = false /\ startsWith e (js "https://") = false.
Proof.
  unfold encodeURIComponent.
  intros [H|H] He; apply startsWith_true in H as [r ->].
  - change (js "http://" ++ r)
      with (104 :: 116 :: 116 :: 112 :: 58 :: 47 :: 47 :: r) in He.
    simpl in He. destruct (Encode uriUnreserved r) as [e'|]; [|discriminate].
    simpl in He. injection He as <-. split; reflexivity.
  - change (js "https://" ++ r)
      with (104 :: 116 :: 116 :: 112 :: 115 :: 58 :: 47 :: 47 :: r) in He.
    simpl in He. destruct (Encode uriUnreserved r) as [e'|]; [|discriminate].
    simpl in He. injection He as <-. split; reflexivity.
Qed.

(** X13.  The path is decoded once.  A target with one of the two schemes
    that was percent-encoded twice decodes to its first encoding, which
    begins with neither scheme: both handlers answer 400 for the format
    and do not fetch. *)
Theorem X13_decoded_once (rt : Runtime) (request : Request)
        (u e e2 : jsstring) :
  is_string u -> http_scheme u ->
  encodeURIComponent u = Some e -> encodeURIComponent e = Some e2 ->
  decodeURIComponent e2 = Some e
  /\ (Worker.encodedTargetUrl request = Some e2 ->
      Worker.handleRequest rt request
      = (inl (text_response 400 (js "Invalid target URL format.")), []))
  /\ (BindingWorker.encodedTargetUrl request = Some e2 ->
      BindingWorker.handleRequest rt request
      = (inl (text_response 400
                (js "Invalid target URL format. Must start with http:// or https://")),
         [])).
Proof.
  intros Su Hu He He2.
  assert (is_string e) as Se.
  { apply ascii_only_is_string.
    now apply (Encode_ascii_bounded _ u e (le_n _)). }
  pose proof (decodeURIComponent_encodeURIComponent e e2 Se He2) as D.
  destruct (encoded_scheme_hidden u e Hu He) as [H1 H2].
  split; [exact D|]. split; intros E.
  - rewrite (Worker_bad_format rt request e2 e E D H1 H2).
    now rewrite answer_400.
  - rewrite (Binding_bad_format rt request e2 e E D H1 H2).
    now rewrite answer_400.
Qed.

Lemma X13_decoded_once_witness :
  decodeURIComponent (js "https%253A%252F%252Fexample.com")
  = Some (js "https%3A%2F%2Fexample.com")
  /\ Worker.handleRequest Examples.fetch_ok
       (Examples.request_at "/proxx/https%253A%252F%252Fexample.com")
     = (inl (text_response 400 (js "Invalid target URL format.")), [])
  /\ BindingWorker.handleRequest Examples.fetch_ok
       (Examples.request_at "/https%253A%252F%252Fexample.com")
     = (inl (text_response 400
               (js "Invalid target URL format. Must start with http:// or https://")),
        []).
Proof.
  pose proof (is_string_js "https://example.com") as S.
  split; [|split].
  - exact (proj1 (X13_decoded_once Examples.fetch_ok (Examples.request_at "/")
                    (js "https://example.com") (js "https%3A%2F%2Fexample.com")
                    (js "https%253A%252F%252Fexample.com")
                    S (or_intror eq_refl) eq_refl eq_refl)).
  - exact (proj1 (proj2 (X13_decoded_once Examples.fetch_ok
                    (Examples.request_at "/proxx/https%253A%252F%252Fexample.com")
                    (js "https://example.com") (js "https%3A%2F%2Fexample.com")
                    (js "https%253A%252F%252Fexample.com")
                    S (or_intror eq_refl) eq_refl eq_refl)) eq_refl).
  - exact (proj2 (proj2 (X13_decoded_once Examples.fetch_ok
                    (Examples.request_at "/https%253A%252F%252Fexample.com")
                    (js "https://example.com") (js "https%3A%2F%2Fexample.com")
                    (js "https%253A%252F%252Fexample.com")
                    S (or_intror eq_refl) eq_refl eq_refl)) eq_refl).
Defined.

End Escapes.
